(** * sol-inst-module: signer backends and quorum authorization

    A shallow embedding of

      - [06-hsm-integration/hsm-signer-interface.js]  (class [HSMSigner]),
      - [06-hsm-integration/mock-hsm-signer.js]       (class [MockHSMSigner]),
      - the HSM-backed SOL transfer script            ([main]),
      - the basic SOL transfer script                 ([Basics.main]),
      - [05-multisig/multisig-operations.js]          (the calls made to the
        multisig engine),

    together with the properties stated about them.  JavaScript objects are
    records, [null] fields are [option]s, exceptions and early [return]s are
    completions threaded through a small state monad, and [Transaction]
    objects live in a store addressed by reference because [partialSign]
    mutates them in place.  Console output and the 100ms timer of the mock
    backend are not modelled. *)

From Stdlib Require Import ZArith.
From stdpp Require Import gmap strings list.

Local Open Scope string_scope.
Local Open Scope list_scope.
Local Open Scope Z_scope.

(* ===================================================================== *)
(** ** JavaScript completions and the state monad *)
(* ===================================================================== *)

(** [new Error(message)]; only the message is observable here. *)
Definition Error := string.

(** How a block of statements finishes: normally with a value, with a
    [return;] statement, or with a thrown error. *)
Inductive Completion (A : Type) : Type :=
| Normal (a : A)
| Returned
| Thrown (e : Error).
Arguments Normal {A} a.
Arguments Returned {A}.
Arguments Thrown {A} e.

Definition Eff (W A : Type) : Type := W -> Completion A * W.

Definition ret {W A} (a : A) : Eff W A := fun w => (Normal a, w).
Definition throw {W A} (e : Error) : Eff W A := fun w => (Thrown e, w).
Definition return_ {W A} : Eff W A := fun w => (Returned, w).
Definition get {W} : Eff W W := fun w => (Normal w, w).
Definition modify {W} (f : W -> W) : Eff W unit := fun w => (Normal tt, f w).

Definition bind {W A B} (m : Eff W A) (k : A -> Eff W B) : Eff W B :=
  fun w =>
    match m w with
    | (Normal a, w') => k a w'
    | (Returned, w') => (Returned, w')
    | (Thrown e, w') => (Thrown e, w')
    end.

Notation "'let!' x ':=' m 'in' k" := (bind m (fun x => k))
  (at level 10, x name, m at level 100, k at level 200,
   format "'[v' 'let!'  x  ':='  m  'in' '/' k ']'").
Notation "m ';;;' k" := (bind m (fun _ => k))
  (at level 100, k at level 200, right associativity).

(** [try { body } catch (e) { handler e }]. *)
Definition try_catch {W A} (body : Eff W A) (handler : Error -> Eff W A)
  : Eff W A :=
  fun w =>
    match body w with
    | (Thrown e, w') => handler e w'
    | r => r
    end.

(** [try { body } finally { fin }]: [fin] runs however [body] finishes; an
    abrupt completion of [fin] replaces the one of [body]. *)
Definition try_finally {W A} (body : Eff W A) (fin : Eff W unit) : Eff W A :=
  fun w =>
    let '(c, w1) := body w in
    match fin w1 with
    | (Normal _, w2) => (c, w2)
    | (Returned, w2) => (Returned, w2)
    | (Thrown e, w2) => (Thrown e, w2)
    end.

(** [try { body } catch (e) { handler e } finally { fin }]. *)
Definition try_catch_finally {W A}
    (body : Eff W A) (handler : Error -> Eff W A) (fin : Eff W unit)
  : Eff W A :=
  try_finally (try_catch body handler) fin.

(* ===================================================================== *)
(** ** The part of @solana/web3.js the signer code calls *)
(* ===================================================================== *)

(** The library is not part of the repository: its key derivation, signing
    and serialisation are taken as parameters.  Bytes are [Z] in [0, 256). *)
Class Web3 : Type := {
  PublicKey : Type;
  PublicKey_eq_dec :: EqDecision PublicKey;
  Keypair : Type;
  Signature : Type;
  (** [Keypair.fromSeed(seed)] *)
  Keypair_fromSeed : list Z -> Keypair;
  (** [keypair.publicKey] *)
  Keypair_publicKey : Keypair -> PublicKey;
  (** [new PublicKey(base58)] *)
  PublicKey_new : string -> Error + PublicKey;
}.

Section Transactions.
Context `{Web3}.

(** [SystemProgram.transfer({ fromPubkey, toPubkey, lamports })] *)
Record Instruction : Type := {
  fromPubkey : PublicKey;
  toPubkey : PublicKey;
  lamports : Z;
}.

(** The fields of a web3.js [Transaction] the scripts read or assign. *)
Record Transaction : Type := {
  instructions : list Instruction;
  recentBlockhash : option string;
  lastValidBlockHeight : option Z;
  feePayer : option PublicKey;
  signatures : list (PublicKey * option Signature);
}.

(** [new Transaction()] *)
Definition Transaction_new : Transaction :=
  {| instructions := []; recentBlockhash := None;
     lastValidBlockHeight := None; feePayer := None; signatures := [] |}.

(** [transaction.add(ix)] *)
Definition Transaction_add (t : Transaction) (ix : Instruction) : Transaction :=
  {| instructions := instructions t ++ [ix];
     recentBlockhash := recentBlockhash t;
     lastValidBlockHeight := lastValidBlockHeight t;
     feePayer := feePayer t;
     signatures := signatures t |}.

Definition set_recentBlockhash (b : string) (t : Transaction) : Transaction :=
  {| instructions := instructions t; recentBlockhash := Some b;
     lastValidBlockHeight := lastValidBlockHeight t;
     feePayer := feePayer t; signatures := signatures t |}.

Definition set_lastValidBlockHeight (h : Z) (t : Transaction) : Transaction :=
  {| instructions := instructions t; recentBlockhash := recentBlockhash t;
     lastValidBlockHeight := Some h;
     feePayer := feePayer t; signatures := signatures t |}.

Definition set_feePayer (p : PublicKey) (t : Transaction) : Transaction :=
  {| instructions := instructions t; recentBlockhash := recentBlockhash t;
     lastValidBlockHeight := lastValidBlockHeight t;
     feePayer := Some p; signatures := signatures t |}.

(** Transaction objects are shared and mutated in place: they live in a
    store and are passed around by reference.  A reference outside the
    store stands for [undefined]. *)
Definition TxRef := nat.
Definition Heap := list Transaction.

(** Values a signer method can hand back to its caller. *)
Inductive JSValue : Type :=
| JSUndefined
| JSPublicKey (pk : PublicKey)
| JSTransaction (tx : TxRef).
End Transactions.

(** The signing half of the library: [transaction.partialSign(keypair)]
    either throws or not, and in both cases may have written to the
    transaction; [transaction.serialize()] yields the wire bytes or throws. *)
Class Web3Signing `{Web3} : Type := {
  Transaction_partialSign : Transaction -> Keypair -> option Error * Transaction;
  Transaction_serialize : Transaction -> Error + list Z;
}.

(* ===================================================================== *)
(** ** Buffers and the seed of the mock backend *)
(* ===================================================================== *)

(** A JavaScript string as its sequence of code points. *)
Definition JSString := list Z.

Definition js (s : string) : JSString :=
  map (fun a => Z.of_N (Ascii.N_of_ascii a)) (String.list_ascii_of_string s).

(** UTF-8 encoding of one code point; a lone surrogate is written as
    U+FFFD. *)
Definition utf8_encode (cp : Z) : list Z :=
  if cp <? 128 then [cp]
  else if cp <? 2048 then
    [Z.lor 192 (Z.shiftr cp 6); Z.lor 128 (Z.land cp 63)]
  else if (55296 <=? cp) && (cp <=? 57343) then [239; 191; 189]
  else if cp <? 65536 then
    [Z.lor 224 (Z.shiftr cp 12);
     Z.lor 128 (Z.land (Z.shiftr cp 6) 63);
     Z.lor 128 (Z.land cp 63)]
  else
    [Z.lor 240 (Z.shiftr cp 18);
     Z.lor 128 (Z.land (Z.shiftr cp 12) 63);
     Z.lor 128 (Z.land (Z.shiftr cp 6) 63);
     Z.lor 128 (Z.land cp 63)].

(** The longest prefix of [s] whose encoding fits in [room] bytes; a
    character that would be cut is not written at all. *)
Fixpoint utf8_fit (room : nat) (s : JSString) : list Z :=
  match s with
  | [] => []
  | cp :: s' =>
      let bs := utf8_encode cp in
      if (length bs <=? room)%nat
      then bs ++ utf8_fit (room - length bs) s'
      else []
  end.

(** [Buffer.alloc(n)]: [n] zero bytes. *)
Definition Buffer_alloc (n : nat) : list Z := replicate n 0.

(** [buf.write(s)]: UTF-8 bytes of [s] from offset 0, as many whole
    characters as fit; the rest of the buffer is untouched. *)
Definition Buffer_write (buf : list Z) (s : JSString) : list Z :=
  let written := utf8_fit (length buf) s in
  written ++ drop (length written) buf.

(* ===================================================================== *)
(** ** hsm-signer-interface.js: class HSMSigner *)
(* ===================================================================== *)

Section SignerInterface.
Context `{Web3Signing}.

(** What a method of a signer object can read and write: the object
    itself ([this]) and the store of transactions. *)
Record World (S : Type) : Type := { this : S; heap : Heap }.
Arguments this {S} w.
Arguments heap {S} w.

Definition set_this {S} (f : S -> S) (w : World S) : World S :=
  {| this := f (this w); heap := heap w |}.
Definition set_heap {S} (f : Heap -> Heap) (w : World S) : World S :=
  {| this := this w; heap := f (heap w) |}.

(** The methods a subclass may override, and the [_publicKey] field that
    the base constructor gives every signer object. *)
Class HSMSigner (S : Type) : Type := {
  _publicKey : S -> option PublicKey;
  connect : Eff (World S) JSValue;
  signTransaction : TxRef -> Eff (World S) JSValue;
  disconnect : Eff (World S) JSValue;
}.

(** [get publicKey()], inherited by every subclass. *)
Definition publicKey {S} {HS : HSMSigner S} : Eff (World S) PublicKey :=
  let! w := get in
  match _publicKey (this w) with
  | None => throw "HSM not initialized. Call connect() first."
  | Some pk => ret pk
  end.

(** The [for (const tx of transactions)] loop of [signAllTransactions];
    [signed] is the local array being filled. *)
Fixpoint signAllTransactions_loop {S} {HS : HSMSigner S}
    (transactions : list TxRef) (signed : list JSValue)
  : Eff (World S) (list JSValue) :=
  match transactions with
  | [] => ret signed
  | tx :: rest =>
      let! v := signTransaction tx in
      signAllTransactions_loop rest (signed ++ [v])
  end.

(** [signAllTransactions(transactions)], inherited by every subclass. *)
Definition signAllTransactions {S} {HS : HSMSigner S}
    (transactions : list TxRef) : Eff (World S) (list JSValue) :=
  signAllTransactions_loop transactions [].

(** An object made by [new HSMSigner()] itself: the constructor sets
    [_publicKey = null] and the three methods are the base ones. *)
Record HSMSignerObject : Type := { base_publicKey : option PublicKey }.

Definition HSMSigner_new : HSMSignerObject := {| base_publicKey := None |}.

#[export] Instance HSMSigner_base : HSMSigner HSMSignerObject := {|
  _publicKey := base_publicKey;
  connect := throw "connect() must be implemented by subclass";
  signTransaction := fun _ =>
    throw "signTransaction() must be implemented by subclass";
  disconnect := ret JSUndefined;
|}.
End SignerInterface.

Arguments this {_ S} w.
Arguments heap {_ S} w.

(* ===================================================================== *)
(** ** mock-hsm-signer.js: class MockHSMSigner *)
(* ===================================================================== *)

Section MockSigner.
Context `{Web3Signing}.

(** The fields of a [MockHSMSigner] object; [mock_publicKey] is the
    inherited [_publicKey]. *)
Record MockHSMSigner : Type := {
  mock_publicKey : option PublicKey;   (* this._publicKey *)
  seedPhrase : JSString;               (* this.seedPhrase *)
  keypair : option Keypair;            (* this.keypair *)
}.

(** [constructor(seedPhrase = 'test-seed')]: [None] is a call without
    the argument. *)
Definition MockHSMSigner_new (arg : option JSString) : MockHSMSigner :=
  {| mock_publicKey := None;
     seedPhrase := default (js "test-seed") arg;
     keypair := None |}.

Definition set_keypair (k : option Keypair) (s : MockHSMSigner) :=
  {| mock_publicKey := mock_publicKey s;
     seedPhrase := seedPhrase s;
     keypair := k |}.
Definition set_publicKey (p : option PublicKey) (s : MockHSMSigner) :=
  {| mock_publicKey := p;
     seedPhrase := seedPhrase s;
     keypair := keypair s |}.

(** The 32-byte seed [connect] builds from the phrase. *)
Definition seed_of (phrase : JSString) : list Z :=
  Buffer_write (Buffer_alloc 32) phrase.

(** [async connect()]: there is no [return] statement, the promise
    resolves to [undefined]. *)
Definition Mock_connect : Eff (World MockHSMSigner) JSValue :=
  let! w := get in
  let seed := seed_of (seedPhrase (this w)) in
  let kp := Keypair_fromSeed seed in
  modify (set_this (set_keypair (Some kp))) ;;;
  modify (set_this (set_publicKey (Some (Keypair_publicKey kp)))) ;;;
  ret JSUndefined.

(** [async signTransaction(transaction)]: the connection check, then
    [transaction.partialSign(this.keypair)] on the shared object, then
    [return transaction]. *)
Definition Mock_signTransaction (transaction : TxRef)
  : Eff (World MockHSMSigner) JSValue :=
  let! w := get in
  match keypair (this w) with
  | None => throw "Mock HSM not connected"
  | Some kp =>
      match heap w !! transaction with
      | None =>
          throw "TypeError: Cannot read properties of undefined (reading 'partialSign')"
      | Some t =>
          let '(err, t') := Transaction_partialSign t kp in
          modify (set_heap (fun h => <[transaction := t']> h)) ;;;
          match err with
          | Some e => throw e
          | None => ret (JSTransaction transaction)
          end
      end
  end.

(** [async disconnect()] *)
Definition Mock_disconnect : Eff (World MockHSMSigner) JSValue :=
  modify (set_this (set_keypair None)) ;;;
  modify (set_this (set_publicKey None)) ;;;
  ret JSUndefined.

#[export] Instance MockHSMSigner_class : HSMSigner MockHSMSigner := {|
  _publicKey := mock_publicKey;
  connect := Mock_connect;
  signTransaction := Mock_signTransaction;
  disconnect := Mock_disconnect;
|}.

(** The calls a client can make on a signer object, and a client as the
    sequence of calls it makes; a call that throws leaves the object as
    the method left it and the client goes on. *)
Inductive Call : Type :=
| CallConnect
| CallDisconnect
| CallPublicKey
| CallSignTransaction (tx : TxRef)
| CallSignAllTransactions (txs : list TxRef).

Definition perform {S} {HS : HSMSigner S} (c : Call) (w : World S) : World S :=
  match c with
  | CallConnect => snd (connect w)
  | CallDisconnect => snd (disconnect w)
  | CallPublicKey => snd (publicKey w)
  | CallSignTransaction tx => snd (signTransaction tx w)
  | CallSignAllTransactions txs => snd (signAllTransactions txs w)
  end.

Definition perform_all {S} {HS : HSMSigner S} (cs : list Call) (w : World S)
  : World S :=
  foldl (fun w c => perform c w) w cs.

(** The lifecycle read off one call: open after a [connect], closed after
    a [disconnect], unchanged by anything else. *)
Definition after_call (open : bool) (c : Call) : bool :=
  match c with
  | CallConnect => true
  | CallDisconnect => false
  | _ => open
  end.

(** Whether the session is open after the calls [cs] on a new object. *)
Definition session_open (cs : list Call) : bool := foldl after_call false cs.

(** The fields of a mock signer whose session is open ([true]) or closed
    ([false]). *)
Definition lifecycle (open : bool) (s : MockHSMSigner) : Prop :=
  if open
  then keypair s = Some (Keypair_fromSeed (seed_of (seedPhrase s)))
       /\ mock_publicKey s
          = Some (Keypair_publicKey (Keypair_fromSeed (seed_of (seedPhrase s))))
  else keypair s = None /\ mock_publicKey s = None.

(** Signing the transactions one after the other, in order, each on the
    world the previous one left: the values returned and the final world
    if every call returns, [None] as soon as one does not. *)
Fixpoint sign_each {S} {HS : HSMSigner S} (txs : list TxRef) (w : World S)
  : option (list JSValue * World S) :=
  match txs with
  | [] => Some ([], w)
  | tx :: rest =>
      match signTransaction tx w with
      | (Normal v, w') =>
          match sign_each rest w' with
          | Some (vs, w'') => Some (v :: vs, w'')
          | None => None
          end
      | _ => None
      end
  end.
End MockSigner.

(* ===================================================================== *)
(** ** The HSM-backed SOL transfer script: [main] *)
(* ===================================================================== *)

Section TransferScript.
Context `{Web3Signing}.

(** What the outside world answers in one run of the script: every
    call on the RPC connection either throws or gives a value. *)
Record Network : Type := {
  (** [clusterApiUrl(cluster)] *)
  clusterApiUrl : string -> string;
  (** [new Connection(endpoint, 'confirmed')]: [Some e] when it throws *)
  Connection_new : string -> option Error;
  (** [connection.requestAirdrop(to, lamports)] *)
  requestAirdrop : PublicKey -> Z -> Error + string;
  (** [connection.confirmTransaction(signature)]: [Some e] when it throws *)
  confirmTransaction : string -> option Error;
  (** [connection.getLatestBlockhash()] *)
  getLatestBlockhash : Error + (string * Z);
  (** [sendAndConfirmRawTransaction(connection, rawTransaction)] *)
  sendAndConfirmRawTransaction : list Z -> Error + string;
}.

(** [process.env] as far as the script reads it. *)
Record ProcessEnv : Type := {
  SOLANA_ENV : option string;
  RPC_ENDPOINT : option string;
}.

(** [x || fallback] on an environment variable: [undefined] and the empty
    string are falsy. *)
Definition or_else (x : option string) (fallback : string) : string :=
  match x with
  | Some s => if String.eqb s "" then fallback else s
  | None => fallback
  end.

Definition LAMPORTS_PER_SOL : Z := 1000000000.

(** The script's view of the process: the one signer object with the
    transaction store, and the calls made on the signer so far. *)
Record Script : Type := {
  hsmSigner : World MockHSMSigner;
  calls : list Call;
}.

(** A method call on [hsmSigner], recorded. *)
Definition invoke {A} (c : Call) (m : Eff (World MockHSMSigner) A)
  : Eff Script A :=
  fun s =>
    let '(r, w) := m (hsmSigner s) in
    (r, {| hsmSigner := w; calls := calls s ++ [c] |}).

Definition lift_result {W A} (r : Error + A) : Eff W A :=
  match r with
  | inl e => throw e
  | inr a => ret a
  end.

Definition lift_throws {W} (r : option Error) : Eff W unit :=
  match r with
  | Some e => throw e
  | None => ret tt
  end.

(** [new Transaction()...]: a fresh object in the store. *)
Definition alloc (t : Transaction) : Eff Script TxRef :=
  fun s =>
    let w := hsmSigner s in
    (Normal (length (heap w)),
     {| hsmSigner := set_heap (fun h => h ++ [t]) w; calls := calls s |}).

(** An assignment to a field of the transaction [tx]. *)
Definition assign (tx : TxRef) (f : Transaction -> Transaction)
  : Eff Script unit :=
  fun s =>
    (Normal tt,
     {| hsmSigner := set_heap (alter f tx) (hsmSigner s);
        calls := calls s |}).

(** [value.serialize()] *)
Definition serialize (v : JSValue) : Eff Script (list Z) :=
  let! s := get in
  match v with
  | JSTransaction tx =>
      match heap (hsmSigner s) !! tx with
      | Some t => lift_result (Transaction_serialize t)
      | None => throw "TypeError: Cannot read properties of undefined (reading 'serialize')"
      end
  | _ => throw "TypeError: signedTransaction.serialize is not a function"
  end.

(** Step 1: the [switch (environment)] that opens the connection. *)
Definition open_connection (environment : string) (env : ProcessEnv)
    (net : Network) : option Error :=
  if String.eqb environment "localnet" then
    Connection_new net "http://localhost:8899"
  else if String.eqb environment "devnet" then
    Connection_new net (clusterApiUrl net "devnet")
  else if String.eqb environment "mainnet-beta" then
    Connection_new net
      (match RPC_ENDPOINT env with
       | Some s => if String.eqb s "" then clusterApiUrl net "mainnet-beta" else s
       | None => clusterApiUrl net "mainnet-beta"
       end)
  else Some ("Unknown environment: " +:+ environment).

(** The body of the [try] block, steps 2b to 6. *)
Definition main_try (environment : string) (net : Network)
  : Eff Script unit :=
  (if String.eqb environment "localnet" || String.eqb environment "devnet"
   then
     try_catch
       (let! to := invoke CallPublicKey publicKey in
        let! airdropSignature :=
          lift_result (requestAirdrop net to (2 * LAMPORTS_PER_SOL)) in
        lift_throws (confirmTransaction net airdropSignature))
       (fun error => return_)
   else ret tt) ;;;
  let! recipient :=
    lift_result (PublicKey_new "11111111111111111111111111111111") in
  let! from := invoke CallPublicKey publicKey in
  let! transaction :=
    alloc (Transaction_add Transaction_new
             {| fromPubkey := from; toPubkey := recipient;
                lamports := 100000000 (* 0.1 * LAMPORTS_PER_SOL *) |}) in
  let! latest := lift_result (getLatestBlockhash net) in
  assign transaction (set_recentBlockhash (fst latest)) ;;;
  assign transaction (set_lastValidBlockHeight (snd latest)) ;;;
  let! payer := invoke CallPublicKey publicKey in
  assign transaction (set_feePayer payer) ;;;
  let! signedTransaction :=
    invoke (CallSignTransaction transaction) (signTransaction transaction) in
  let! raw := serialize signedTransaction in
  let! signature := lift_result (sendAndConfirmRawTransaction net raw) in
  ret tt.

(** From [new MockHSMSigner('my-secure-seed')] to the end of [main]. *)
Definition main_with_signer (environment : string) (net : Network)
  : Eff Script unit :=
  invoke CallConnect connect ;;;
  try_catch_finally
    (main_try environment net)
    (fun error => ret tt)
    (invoke CallDisconnect disconnect ;;; ret tt).

(** [main()]: how the returned promise settles, and the script state if
    the signer object was created at all. *)
Definition main (env : ProcessEnv) (net : Network)
  : Completion unit * option Script :=
  let environment := or_else (SOLANA_ENV env) "localnet" in
  match open_connection environment env net with
  | Some e => (Thrown e, None)
  | None =>
      let hsm := MockHSMSigner_new (Some (js "my-secure-seed")) in
      let '(c, s) :=
        main_with_signer environment net
          {| hsmSigner := {| this := hsm; heap := [] |}; calls := [] |} in
      (c, Some s)
  end.

(** A computation of the script that only ever adds to the record of
    calls on the signer. *)
Definition extends {A} (m : Eff Script A) : Prop :=
  forall s, calls s `prefix_of` calls (snd (m s)).
End TransferScript.

(* ===================================================================== *)
(** ** A symbolic web3.js to run the code on concrete inputs *)
(* ===================================================================== *)

(** Keys and signatures as terms: a key pair is its seed, its public key
    names the seed, a signature names the signing seed and the blockhash it
    covers.  [partialSign] follows the library in what it throws: it needs a
    recent blockhash and a fee payer, resets the signature slots to the
    required signers and rejects a signer that is not one of them. *)
Module Sym.
Inductive Key : Type :=
| KeyOfSeed (seed : list Z)
| KeyOfBase58 (address : string).

#[export] Instance Key_eq_dec : EqDecision Key.
Proof. solve_decision. Defined.

Inductive Sig : Type := SigBy (seed : list Z) (blockhash : string).

#[export] Instance web3 : Web3 := {|
  PublicKey := Key;
  Keypair := list Z;
  Signature := Sig;
  Keypair_fromSeed := fun seed => seed;
  Keypair_publicKey := KeyOfSeed;
  PublicKey_new := fun address => inr (KeyOfBase58 address);
|}.

(** The accounts that must sign: the fee payer first, then every
    [fromPubkey], without repetition. *)
Definition required_signers (payer : Key) (t : Transaction) : list Key :=
  remove_dups (payer :: map fromPubkey (instructions t)).

Definition slot_of (old : list (Key * option Sig)) (k : Key)
  : Key * option Sig :=
  match list_find (fun p => fst p = k) old with
  | Some (_, p) => p
  | None => (k, None)
  end.

Definition with_signatures (sigs : list (Key * option Sig))
    (t : Transaction) : Transaction :=
  {| instructions := instructions t;
     recentBlockhash := recentBlockhash t;
     lastValidBlockHeight := lastValidBlockHeight t;
     feePayer := feePayer t;
     signatures := sigs |}.

Definition partialSign (t : Transaction) (kp : list Z)
  : option Error * Transaction :=
  match recentBlockhash t with
  | None => (Some "Transaction recentBlockhash required", t)
  | Some blockhash =>
      match feePayer t with
      | None => (Some "Transaction fee payer required", t)
      | Some payer =>
          let slots := map (slot_of (signatures t)) (required_signers payer t) in
          let me := KeyOfSeed kp in
          if bool_decide (me ∈ map fst slots) then
            (None,
             with_signatures
               (map (fun p => if bool_decide (fst p = me)
                              then (me, Some (SigBy kp blockhash))
                              else p) slots) t)
          else (Some "unknown signer", with_signatures slots t)
      end
  end.

Definition serialize_tx (t : Transaction) : Error + list Z :=
  if forallb (fun p => bool_decide (is_Some (snd p))) (signatures t)
  then inr []
  else inl "Signature verification failed".

#[export] Instance signing : Web3Signing := {|
  Transaction_partialSign := partialSign;
  Transaction_serialize := serialize_tx;
|}.

(** A transfer ready to be signed by the key with seed [seed]. *)
Definition ready_transfer (seed : list Z) : Transaction :=
  set_feePayer (KeyOfSeed seed)
    (set_recentBlockhash "blockhash"
       (Transaction_add Transaction_new
          {| fromPubkey := KeyOfSeed seed;
             toPubkey := KeyOfBase58 "11111111111111111111111111111111";
             lamports := 100000000 |})).

(** The same transfer before its blockhash is set. *)
Definition stale_transfer (seed : list Z) : Transaction :=
  set_feePayer (KeyOfSeed seed)
    (Transaction_add Transaction_new
       {| fromPubkey := KeyOfSeed seed;
          toPubkey := KeyOfBase58 "11111111111111111111111111111111";
          lamports := 100000000 |}).

(** A network on which every call succeeds. *)
Definition good_network : Network := {|
  clusterApiUrl := fun cluster => "https://api." +:+ cluster +:+ ".solana.com";
  Connection_new := fun _ => None;
  requestAirdrop := fun _ _ => inr "airdrop-signature";
  confirmTransaction := fun _ => None;
  getLatestBlockhash := inr ("blockhash", 100);
  sendAndConfirmRawTransaction := fun _ => inr "transfer-signature";
|}.

(** A network that refuses the final submission. *)
Definition rejecting_network : Network := {|
  clusterApiUrl := clusterApiUrl good_network;
  Connection_new := Connection_new good_network;
  requestAirdrop := requestAirdrop good_network;
  confirmTransaction := confirmTransaction good_network;
  getLatestBlockhash := getLatestBlockhash good_network;
  sendAndConfirmRawTransaction := fun _ => inl "Transaction simulation failed";
|}.

(** A mock signer made with [new MockHSMSigner()], connected, in front of
    three transfers of its own key of which the second has no blockhash. *)
Definition batch_world : World MockHSMSigner :=
  let seed := seed_of (js "test-seed") in
  snd (connect {| this := MockHSMSigner_new None;
                  heap := [ready_transfer seed; stale_transfer seed;
                           ready_transfer seed] |}).

(** Whether the transaction [tx] of the store carries a signature. *)
Definition is_signed (w : World MockHSMSigner) (tx : TxRef) : bool :=
  match heap w !! tx with
  | Some t => existsb (fun p => bool_decide (is_Some (snd p))) (signatures t)
  | None => false
  end.
End Sym.

(* ===================================================================== *)
(** ** The quorum engine behind multisig-operations.js *)
(* ===================================================================== *)

(** [multisig-operations.js] only calls the engine ([multisig.create],
    [buildCreateProposalTransaction], [buildApproveTransaction],
    [buildExecuteTransaction]); the engine itself is not among the source
    files and is modelled from the specification.  The permission masks
    are the script's: 7 is Propose, Approve and Execute, 3 is Propose and
    Approve. *)
Module Multisig.
Section Engine.
Context {Identity : Type} `{Countable Identity}.
Context {Payload SignedTx Confirmation : Type}.

(** Modelled from the spec: the capability set "{Propose, Approve,
    Execute}"; the bit values are those of the script's masks. *)
Inductive Permission : Type := Propose | Approve | Execute.

Definition permission_bit (p : Permission) : Z :=
  match p with
  | Propose => 1
  | Approve => 2
  | Execute => 4
  end.

(** A member entry as the script writes it:
    [{ pubkey, permissions: { mask } }]. *)
Record Member : Type := { identity : Identity; permission_bits : Z }.

(** Modelled from the spec: "MemberRegistry: {members: ordered sequence
    of Member, threshold}". *)
Record Registry : Type := { members : list Member; threshold : Z }.

(** Modelled from the spec: the failures named in sections 4.1 and
    4.2. *)
Inductive EngineError : Type :=
| InvalidThreshold
| DuplicateMember
| Unauthorized
| ProposalNotActive
| UnknownProposal
| ProposalNotReady
| SigningFailed
| SubmissionFailed.

(** Modelled from the spec: the error taxonomy's [ConfigurationError]
    ("bad threshold/duplicate member"). *)
Definition is_ConfigurationError (e : EngineError) : bool :=
  match e with
  | InvalidThreshold | DuplicateMember => true
  | _ => false
  end.

(** Modelled from the spec: [create(members, threshold)] of the member
    registry, absent from the sources. "fails with InvalidThreshold if
    threshold < 1 or threshold > len(members); fails with DuplicateMember
    if any two entries share an identity." *)
Definition create (ms : list Member) (t : Z) : EngineError + Registry :=
  if (t <? 1) || (Z.of_nat (length ms) <? t) then inl InvalidThreshold
  else if bool_decide (NoDup (map identity ms))
       then inr {| members := ms; threshold := t |}
       else inl DuplicateMember.

(** Modelled from the spec: [has_permission(identity, required_bit)],
    absent from the sources. "pure lookup; unknown identity returns
    false". *)
Definition has_permission (r : Registry) (who : Identity) (p : Permission)
  : bool :=
  match list_find (fun m => identity m = who) (members r) with
  | Some (_, m) => negb (Z.land (permission_bits m) (permission_bit p) =? 0)
  | None => false
  end.

(** Modelled from the spec: the proposal states of section 4.2, where
    creation yields [Active]. *)
Inductive ProposalState : Type :=
| Active | Approved | Rejected | Executed | Cancelled.

Inductive Decision : Type := VoteApprove | VoteReject.

#[export] Instance Decision_eq_dec : EqDecision Decision.
Proof. solve_decision. Defined.

#[export] Instance ProposalState_eq_dec : EqDecision ProposalState.
Proof. solve_decision. Defined.

(** Modelled from the spec: "Proposal: {index, action_payload, creator,
    state, votes, created_at, time_lock}", with the confirmation receipt
    stored on execution. *)
Record Proposal : Type := {
  index : nat;
  action_payload : Payload;
  creator : Identity;
  state : ProposalState;
  votes : gmap Identity Decision;
  created_at : Z;
  time_lock : Z;
  receipt : option Confirmation;
}.

(** Modelled from the spec: one authorization domain, the sealed
    registry and its proposal store, where the proposal with index [i]
    sits at position [i]. *)
Record Engine : Type := { registry : Registry; proposals : list Proposal }.

Definition new_engine (r : Registry) : Engine :=
  {| registry := r; proposals := [] |}.

(** Overwrites the proposal at position [i]. *)
Definition store (e : Engine) (i : nat) (p : Proposal) : Engine :=
  {| registry := registry e; proposals := <[i := p]> (proposals e) |}.

(** Modelled from the spec: [create_proposal(creator, action_payload,
    time_lock)], absent from the sources. "allocates the next monotonic
    index, stores a new Proposal in state Active with empty vote set";
    "Unauthorized if creator lacks Propose permission". *)
Definition create_proposal (e : Engine) (who : Identity) (payload : Payload)
    (lock now : Z) : EngineError + (Engine * Proposal) :=
  if has_permission (registry e) who Propose then
    let p := {| index := length (proposals e); action_payload := payload;
                creator := who; state := Active; votes := ∅;
                created_at := now; time_lock := lock; receipt := None |} in
    inr ({| registry := registry e; proposals := proposals e ++ [p] |}, p)
  else inl Unauthorized.

(** The number of [Approve] votes recorded. *)
Definition count_approve (vs : gmap Identity Decision) : Z :=
  Z.of_nat (size (filter (fun kv => kv.2 = VoteApprove) vs)).

Definition with_vote (p : Proposal) (vs : gmap Identity Decision)
    (st : ProposalState) : Proposal :=
  {| index := index p; action_payload := action_payload p;
     creator := creator p; state := st; votes := vs;
     created_at := created_at p; time_lock := time_lock p;
     receipt := receipt p |}.

(** Modelled from the spec: [cast_vote(proposal_index, member,
    decision)], absent from the sources, with the minimal policy:
    "upserts votes[member] = decision. After the update, recompute
    tallies: if count(Approve) >= threshold, transition to Approved". *)
Definition cast_vote (e : Engine) (i : nat) (who : Identity) (d : Decision)
  : EngineError + Engine :=
  if negb (has_permission (registry e) who Approve) then inl Unauthorized
  else
    match proposals e !! i with
    | None => inl UnknownProposal
    | Some p =>
        if bool_decide (state p = Active) then
          let vs := <[who := d]> (votes p) in
          let st := if threshold (registry e) <=? count_approve vs
                    then Approved else Active in
          inr (store e i (with_vote p vs st))
        else inl ProposalNotActive
    end.

(** What one execution attempt did: its result, the engine afterwards
    and the payloads handed to the signer. *)
Record Execution : Type := {
  outcome : EngineError + Confirmation;
  engine_after : Engine;
  signer_calls : list Payload;
}.

Definition executed (p : Proposal) (c : Confirmation) : Proposal :=
  {| index := index p; action_payload := action_payload p;
     creator := creator p; state := Executed; votes := votes p;
     created_at := created_at p; time_lock := time_lock p;
     receipt := Some c |}.

(** Modelled from the spec: [execute_proposal(proposal_index, executor,
    signer)], absent from the sources. "Preconditions: proposal in state
    Approved; now >= created_at + time_lock; executor holds the Execute
    permission bit"; then sign, submit, and "on confirmation, transition
    Proposal to Executed".  [sign] and [submit] answer [None] when the
    signer or the ledger fails. *)
Definition execute_proposal (e : Engine) (i : nat) (who : Identity)
    (now : Z) (sign : Payload -> option SignedTx)
    (submit : SignedTx -> option Confirmation) : Execution :=
  let fail err calls :=
    {| outcome := inl err; engine_after := e; signer_calls := calls |} in
  match proposals e !! i with
  | None => fail ProposalNotReady []
  | Some p =>
      if negb (bool_decide (state p = Approved))
         || (now <? created_at p + time_lock p)
      then fail ProposalNotReady []
      else if negb (has_permission (registry e) who Execute)
      then fail Unauthorized []
      else
        match sign (action_payload p) with
        | None => fail SigningFailed [action_payload p]
        | Some stx =>
            match submit stx with
            | None => fail SubmissionFailed [action_payload p]
            | Some c =>
                {| outcome := inr c;
                   engine_after := store e i (executed p c);
                   signer_calls := [action_payload p] |}
            end
        end
  end.

(** The state of proposal [i], if there is one. *)
Definition state_of (e : Engine) (i : nat) : option ProposalState :=
  state <$> proposals e !! i.

(** The member list of the script: creator and member1 with mask 7,
    member2 with mask 3; the threshold it passes is 2. *)
Definition script_members (creator member1 member2 : Identity)
  : list Member :=
  [ {| identity := creator; permission_bits := 7 |};
    {| identity := member1; permission_bits := 7 |};
    {| identity := member2; permission_bits := 3 |} ].

Definition script_threshold : Z := 2.

(** The engine calls of the script in their order: [multisig.create]
    with [timeLock: 0], the proposal created by [creator], the one
    approval by [member1], then the execution by [creator].  [None] when
    a step before the execution fails. *)
Definition script_run (creator member1 member2 : Identity)
    (message : Payload) (now : Z) (sign : Payload -> option SignedTx)
    (submit : SignedTx -> option Confirmation) : option Execution :=
  match create (script_members creator member1 member2) script_threshold with
  | inl _ => None
  | inr reg =>
      match create_proposal (new_engine reg) creator message 0 now with
      | inl _ => None
      | inr (e0, p) =>
          match cast_vote e0 (index p) member1 VoteApprove with
          | inl _ => None
          | inr e1 =>
              Some (execute_proposal e1 (index p) creator now sign submit)
          end
      end
  end.
End Engine.
End Multisig.

(** Three members named by strings, all with mask 7. *)
Definition abc : list (@Multisig.Member string) :=
  [ {| Multisig.identity := "A"; Multisig.permission_bits := 7 |};
    {| Multisig.identity := "B"; Multisig.permission_bits := 7 |};
    {| Multisig.identity := "C"; Multisig.permission_bits := 7 |} ].


(* ===================================================================== *)
(** ** Seed phrases *)
(* ===================================================================== *)

(** A phrase made of ASCII characters only: each takes one byte. *)
Definition ascii_phrase (s : JSString) : Prop :=
  Forall (fun cp => 0 <= cp < 128) s.

(** An ASCII phrase without the NUL character. *)
Definition printable_phrase (s : JSString) : Prop :=
  Forall (fun cp => 0 < cp < 128) s.

(* ===================================================================== *)
(** ** Reading the transfer script *)
(* ===================================================================== *)

Section TransferScriptReading.
Context `{Web3Signing}.

(** The public key of the signer the script creates:
    [new MockHSMSigner('my-secure-seed')]. *)
Definition script_identity : PublicKey :=
  Keypair_publicKey (Keypair_fromSeed (seed_of (js "my-secure-seed"))).

(** Whether the script asks for an airdrop in this environment. *)
Definition funds_wallet (environment : string) : bool :=
  String.eqb environment "localnet" || String.eqb environment "devnet".

(** The airdrop step goes through: the request is answered and the
    confirmation does not throw. *)
Definition airdrop_confirmed (net : Network) : Prop :=
  exists airdropSignature,
    requestAirdrop net script_identity (2 * LAMPORTS_PER_SOL)
    = inr airdropSignature
    /\ confirmTransaction net airdropSignature = None.

(** The airdrop step throws, at the request or at the confirmation. *)
Definition airdrop_fails (net : Network) : Prop :=
  (exists e, requestAirdrop net script_identity (2 * LAMPORTS_PER_SOL) = inl e)
  \/ (exists airdropSignature e,
        requestAirdrop net script_identity (2 * LAMPORTS_PER_SOL)
        = inr airdropSignature
        /\ confirmTransaction net airdropSignature = Some e).

(** The transaction as the script hands it to the signer. *)
Definition script_transfer (recipient : PublicKey) (blockhash : string)
    (height : Z) : Transaction :=
  {| instructions := [ {| fromPubkey := script_identity;
                          toPubkey := recipient;
                          lamports := 100000000 |} ];
     recentBlockhash := Some blockhash;
     lastValidBlockHeight := Some height;
     feePayer := Some script_identity;
     signatures := [] |}.

(** Two networks that answer alike except, possibly, about airdrops. *)
Definition same_but_airdrop (net net' : Network) : Prop :=
  clusterApiUrl net = clusterApiUrl net'
  /\ Connection_new net = Connection_new net'
  /\ getLatestBlockhash net = getLatestBlockhash net'
  /\ sendAndConfirmRawTransaction net = sendAndConfirmRawTransaction net'.

(** Two networks that answer alike except, possibly, to the submission of
    the signed transaction. *)
Definition same_but_submission (net net' : Network) : Prop :=
  clusterApiUrl net = clusterApiUrl net'
  /\ Connection_new net = Connection_new net'
  /\ requestAirdrop net = requestAirdrop net'
  /\ confirmTransaction net = confirmTransaction net'
  /\ getLatestBlockhash net = getLatestBlockhash net'.
End TransferScriptReading.

(* ===================================================================== *)
(** ** The basic SOL transfer script: [main] *)
(* ===================================================================== *)

(** The script that follows the [HSMSigner] class in the sources: it
    opens a connection, makes two wallets, funds the sender on the test
    networks, and sends 0.5 SOL signed with the sender's key pair. *)
Module Basics.
Section Script.
Context `{Web3}.

(** The calls on the RPC connection, as the script makes them. *)
Inductive Request : Type :=
| GetVersion
| RequestAirdrop (to : PublicKey) (amount : Z)
| ConfirmTransaction (signature : string)
| GetBalance (account : PublicKey)
| SendAndConfirmTransaction (transaction : Transaction)
    (signers : list Keypair).

(** What the outside world answers.  An answer may depend on the requests
    made before it, so that a balance can differ from one reading to the
    next. *)
Record Rpc : Type := {
  (** [clusterApiUrl(cluster)] *)
  clusterApiUrl : string -> string;
  (** [new Connection(endpoint, 'confirmed')]: [Some e] when it throws *)
  Connection_new : string -> option Error;
  (** [connection.getVersion()] *)
  getVersion : list Request -> Error + string;
  (** [connection.requestAirdrop(to, lamports)] *)
  requestAirdrop : list Request -> PublicKey -> Z -> Error + string;
  (** [connection.confirmTransaction(signature)] *)
  confirmTransaction : list Request -> string -> Error + unit;
  (** [connection.getBalance(publicKey)], in lamports *)
  getBalance : list Request -> PublicKey -> Error + Z;
  (** [sendAndConfirmTransaction(connection, transaction, signers)] *)
  sendAndConfirmTransaction :
    list Request -> Transaction -> list Keypair -> Error + string;
}.

(** One awaited call: it is recorded, and it returns or throws as the
    outside world answers given the requests before it. *)
Definition request {A} (r : Request) (answer : list Request -> Error + A)
  : Eff (list Request) A :=
  fun log =>
    match answer log with
    | inl e => (Thrown e, log ++ [r])
    | inr a => (Normal a, log ++ [r])
    end.

(** Step 1: the [switch (environment)] that opens the connection. *)
Definition open_connection (environment : string) (env : ProcessEnv)
    (rpc : Rpc) : option Error :=
  if String.eqb environment "localnet" then
    Connection_new rpc "http://localhost:8899"
  else if String.eqb environment "devnet" then
    Connection_new rpc (clusterApiUrl rpc "devnet")
  else if String.eqb environment "mainnet-beta" then
    Connection_new rpc
      (match RPC_ENDPOINT env with
       | Some s => if String.eqb s "" then clusterApiUrl rpc "mainnet-beta" else s
       | None => clusterApiUrl rpc "mainnet-beta"
       end)
  else Some ("Unknown environment: " +:+ environment).

(** Step 5: [new Transaction()] with the transfer of 0.5 SOL added. *)
Definition transfer_transaction (sender recipient : Keypair) : Transaction :=
  Transaction_add Transaction_new
    {| fromPubkey := Keypair_publicKey sender;
       toPubkey := Keypair_publicKey recipient;
       lamports := 500000000 (* 0.5 * LAMPORTS_PER_SOL *) |}.

(** From [connection.getVersion()] to the end of [main]; [sender] and
    [recipient] are the two results of [Keypair.generate()]. *)
Definition main_connected (environment : string) (rpc : Rpc)
    (sender recipient : Keypair) : Eff (list Request) unit :=
  let! version := request GetVersion (getVersion rpc) in
  (if String.eqb environment "localnet" || String.eqb environment "devnet"
   then
     try_catch
       (let! airdropSignature :=
          request (RequestAirdrop (Keypair_publicKey sender)
                     (2 * LAMPORTS_PER_SOL))
            (fun log => requestAirdrop rpc log (Keypair_publicKey sender)
                          (2 * LAMPORTS_PER_SOL)) in
        request (ConfirmTransaction airdropSignature)
          (fun log => confirmTransaction rpc log airdropSignature))
       (fun error => return_)
   else ret tt) ;;;
  let! senderBalance :=
    request (GetBalance (Keypair_publicKey sender))
      (fun log => getBalance rpc log (Keypair_publicKey sender)) in
  (if senderBalance =? 0 then return_ else ret tt) ;;;
  let transaction := transfer_transaction sender recipient in
  try_catch
    (let! signature :=
       request (SendAndConfirmTransaction transaction [sender])
         (fun log => sendAndConfirmTransaction rpc log transaction [sender]) in
     ret tt)
    (fun error => ret tt) ;;;
  let! finalSenderBalance :=
    request (GetBalance (Keypair_publicKey sender))
      (fun log => getBalance rpc log (Keypair_publicKey sender)) in
  let! finalRecipientBalance :=
    request (GetBalance (Keypair_publicKey recipient))
      (fun log => getBalance rpc log (Keypair_publicKey recipient)) in
  ret tt.

(** [main()]: how the returned promise settles and the requests made. *)
Definition main (env : ProcessEnv) (rpc : Rpc) (sender recipient : Keypair)
  : Completion unit * list Request :=
  let environment := or_else (SOLANA_ENV env) "localnet" in
  match open_connection environment env rpc with
  | Some e => (Thrown e, [])
  | None => main_connected environment rpc sender recipient []
  end.

(** The requests of a run in which nothing stops the script, given the
    signature the airdrop returned. *)
Definition full_run (environment : string) (sender recipient : Keypair)
    (airdropSignature : string) : list Request :=
  [GetVersion]
  ++ (if String.eqb environment "localnet" || String.eqb environment "devnet"
      then [RequestAirdrop (Keypair_publicKey sender) (2 * LAMPORTS_PER_SOL);
            ConfirmTransaction airdropSignature]
      else [])
  ++ [GetBalance (Keypair_publicKey sender);
      SendAndConfirmTransaction (transfer_transaction sender recipient)
        [sender];
      GetBalance (Keypair_publicKey sender);
      GetBalance (Keypair_publicKey recipient)].

(** Whether a request is the submission of a transaction. *)
Definition is_send (r : Request) : bool :=
  match r with
  | SendAndConfirmTransaction _ _ => true
  | _ => false
  end.
End Script.
End Basics.

(* ===================================================================== *)
(** ** More concrete inputs *)
(* ===================================================================== *)

Module Scenarios.
Import Sym.

(** A signing library whose [partialSign] always refuses. *)
Definition refusing : Web3Signing := {|
  Transaction_partialSign := fun t _ => (Some "policy violation", t);
  Transaction_serialize := serialize_tx;
|}.

(** A network whose faucet is rate limited. *)
Definition dry_network : Network := {|
  clusterApiUrl := clusterApiUrl good_network;
  Connection_new := Connection_new good_network;
  requestAirdrop := fun _ _ => inl "429 Too Many Requests";
  confirmTransaction := confirmTransaction good_network;
  getLatestBlockhash := getLatestBlockhash good_network;
  sendAndConfirmRawTransaction :=
    sendAndConfirmRawTransaction good_network;
|}.

(** Two ASCII phrases of 40 and 36 characters with the same first 32. *)
Definition long_phrase : JSString :=
  js "correct horse battery staple one two three".
Definition other_long_phrase : JSString :=
  js "correct horse battery staple one and more".

(** Two wallets for the basic transfer script. *)
Definition alice : list Z := seed_of (js "alice").
Definition bob : list Z := seed_of (js "bob").

(** An RPC node on which every call succeeds; the sender holds 2 SOL
    after the airdrop. *)
Definition funded_rpc : Basics.Rpc := {|
  Basics.clusterApiUrl := clusterApiUrl good_network;
  Basics.Connection_new := fun _ => None;
  Basics.getVersion := fun _ => inr "1.18";
  Basics.requestAirdrop := fun _ _ _ => inr "airdrop-signature";
  Basics.confirmTransaction := fun _ _ => inr tt;
  Basics.getBalance := fun _ _ => inr 2000000000;
  Basics.sendAndConfirmTransaction := fun _ _ _ => inr "transfer-signature";
|}.
End Scenarios.

(* ===================================================================== *)
(** ** Properties of the signer backends *)
(* ===================================================================== *)

Section SignerProperties.
Context `{Web3Signing}.

Ltac unfold_eff :=
  cbv [Mock_connect Mock_disconnect Mock_signTransaction publicKey
       bind get modify ret throw return_ set_this set_heap
       set_keypair set_publicKey].

Lemma session_open_snoc cs c :
  session_open (cs ++ [c]) = after_call (session_open cs) c.
Proof. unfold session_open. rewrite foldl_app. reflexivity. Qed.

Lemma perform_all_snoc {S} {HS : HSMSigner S} cs c (w : World S) :
  perform_all (cs ++ [c]) w = perform c (perform_all cs w).
Proof. unfold perform_all. rewrite foldl_app. reflexivity. Qed.

Lemma Mock_signTransaction_this tx (w : World MockHSMSigner) :
  this (snd (Mock_signTransaction tx w)) = this w.
Proof.
  unfold_eff. cbn.
  destruct (keypair (this w)); [|reflexivity].
  destruct (heap w !! tx); [|reflexivity].
  destruct (Transaction_partialSign _ _) as [[e|] t']; reflexivity.
Qed.

Lemma signAllTransactions_loop_this txs :
  forall signed (w : World MockHSMSigner),
    this (snd (signAllTransactions_loop txs signed w)) = this w.
Proof.
  induction txs as [|tx txs IH]; intros signed w; [reflexivity|].
  cbn [signAllTransactions_loop]. unfold bind at 1.
  pose proof (Mock_signTransaction_this tx w) as Hs.
  change (signTransaction tx w) with (Mock_signTransaction tx w).
  destruct (Mock_signTransaction tx w) as [[v| |e] w']; cbn [snd] in *;
    [rewrite IH|..]; exact Hs.
Qed.

Lemma publicKey_world {S} {HS : HSMSigner S} (w : World S) :
  snd (publicKey w) = w.
Proof. unfold_eff. destruct (_publicKey (this w)); reflexivity. Qed.

(** Calls other than [connect] and [disconnect] leave the signer object
    as it is. *)
Lemma perform_this (c : Call) (w : World MockHSMSigner) :
  c <> CallConnect -> c <> CallDisconnect ->
  this (perform c w) = this w.
Proof.
  intros Hc Hd. destruct c as [| | |tx|txs]; try congruence; cbn [perform].
  - rewrite publicKey_world. reflexivity.
  - apply Mock_signTransaction_this.
  - apply signAllTransactions_loop_this.
Qed.

Lemma perform_seedPhrase (c : Call) (w : World MockHSMSigner) :
  seedPhrase (this (perform c w)) = seedPhrase (this w).
Proof.
  destruct c as [| | |tx|txs];
    [reflexivity | reflexivity | rewrite perform_this; congruence ..].
Qed.

Lemma perform_all_seedPhrase cs (w : World MockHSMSigner) :
  seedPhrase (this (perform_all cs w)) = seedPhrase (this w).
Proof.
  induction cs as [|c cs IH] using rev_ind; [reflexivity|].
  rewrite perform_all_snoc, perform_seedPhrase. exact IH.
Qed.

Lemma perform_lifecycle (c : Call) (open : bool) (w : World MockHSMSigner) :
  lifecycle open (this w) ->
  lifecycle (after_call open c) (this (perform c w)).
Proof.
  intros Hl.
  destruct c as [| | |tx|txs]; cbn [after_call];
    [split; reflexivity | split; reflexivity
    | rewrite perform_this by congruence; exact Hl ..].
Qed.

(** The fields of the object follow the calls made on it. *)
Lemma perform_all_lifecycle cs arg (h : Heap) :
  lifecycle (session_open cs)
    (this (perform_all cs {| this := MockHSMSigner_new arg; heap := h |})).
Proof.
  induction cs as [|c cs IH] using rev_ind.
  - split; reflexivity.
  - rewrite session_open_snoc, perform_all_snoc.
    apply perform_lifecycle, IH.
Qed.

(** A plain [HSMSigner] object never gets a public key: its [connect]
    throws. *)
Lemma base_perform_all cs (w : World HSMSignerObject) :
  perform_all cs w = w.
Proof.
  induction cs as [|c cs IH] using rev_ind; [reflexivity|].
  rewrite perform_all_snoc, IH.
  destruct c as [| | |tx|txs]; cbn [perform]; try reflexivity.
  - apply publicKey_world.
  - destruct txs; reflexivity.
Qed.

(** C3. A mock signer whose session is not open (it was never connected,
    or it was disconnected since its last connect) refuses to sign: the
    call throws 'Mock HSM not connected' and neither the object nor any
    transaction in the store changes, so no signature is produced. *)
Theorem sign_refused_when_not_connected
    (arg : option JSString) (cs : list Call) (h : Heap) (tx : TxRef) :
  session_open cs = false ->
  let w := perform_all cs {| this := MockHSMSigner_new arg; heap := h |} in
  signTransaction tx w = (Thrown "Mock HSM not connected", w).
Proof.
  intros Hclosed w.
  pose proof (perform_all_lifecycle cs arg h) as Hl.
  rewrite Hclosed in Hl. destruct Hl as [Hk _].
  change (Mock_signTransaction tx w = (Thrown "Mock HSM not connected", w)).
  unfold Mock_signTransaction, bind, get. fold w in Hk. rewrite Hk.
  reflexivity.
Qed.

(** C10. Reading [publicKey] on a mock signer whose session is not open
    throws 'HSM not initialized. Call connect() first.' instead of
    returning null, and so does reading it on a plain [HSMSigner] object
    after any calls; when the read does return a key, the session is
    open. *)
Theorem publicKey_throws_when_not_connected
    (arg : option JSString) (cs : list Call) (h : Heap) :
  session_open cs = false ->
  let w := perform_all cs {| this := MockHSMSigner_new arg; heap := h |} in
  let b := perform_all cs {| this := HSMSigner_new; heap := h |} in
  publicKey w = (Thrown "HSM not initialized. Call connect() first.", w)
  /\ publicKey b = (Thrown "HSM not initialized. Call connect() first.", b).
Proof.
  intros Hclosed w b. split.
  - pose proof (perform_all_lifecycle cs arg h) as Hl.
    rewrite Hclosed in Hl. destruct Hl as [_ Hp].
    unfold publicKey, bind, get. cbn [_publicKey MockHSMSigner_class].
    fold w in Hp. rewrite Hp. reflexivity.
  - subst b. rewrite base_perform_all. reflexivity.
Qed.

(** Reading [publicKey] while the session is open gives the key derived
    from the seed phrase. *)
Lemma publicKey_when_connected
    (arg : option JSString) (cs : list Call) (h : Heap) :
  session_open cs = true ->
  let w := perform_all cs {| this := MockHSMSigner_new arg; heap := h |} in
  publicKey w
  = (Normal (Keypair_publicKey
               (Keypair_fromSeed (seed_of (default (js "test-seed") arg)))), w).
Proof.
  intros Hopen w.
  pose proof (perform_all_lifecycle cs arg h) as Hl.
  rewrite Hopen in Hl. destruct Hl as [_ Hp]. fold w in Hp.
  unfold publicKey, bind, get. cbn [_publicKey MockHSMSigner_class].
  rewrite Hp. subst w. rewrite perform_all_seedPhrase. reflexivity.
Qed.

(** C6. [disconnect] never throws and is idempotent, on the mock signer
    and on the base class: a second [disconnect] right after the first
    leaves the world exactly as the first left it, and a mock signer is
    then without key pair and public key while the transactions are
    untouched. *)
Theorem disconnect_idempotent
    (w : World MockHSMSigner) (b : World HSMSignerObject) :
  let w1 := snd (disconnect w) in
  let b1 := snd (disconnect b) in
  fst (disconnect w) = Normal JSUndefined
  /\ disconnect w1 = (Normal JSUndefined, w1)
  /\ keypair (this w1) = None /\ mock_publicKey (this w1) = None
  /\ heap w1 = heap w
  /\ disconnect b = (Normal JSUndefined, b)
  /\ disconnect b1 = (Normal JSUndefined, b1).
Proof. repeat split. Qed.

(** On a mock signer whose session is not open, [disconnect] changes
    nothing at all. *)
Lemma disconnect_noop_when_not_connected
    (arg : option JSString) (cs : list Call) (h : Heap) :
  session_open cs = false ->
  let w := perform_all cs {| this := MockHSMSigner_new arg; heap := h |} in
  disconnect w = (Normal JSUndefined, w).
Proof.
  intros Hclosed w.
  pose proof (perform_all_lifecycle cs arg h) as Hl.
  rewrite Hclosed in Hl. fold w in Hl. destruct Hl as [Hk Hp].
  destruct w as [[pk phrase kp] hw]. cbn in Hk, Hp. subst pk kp.
  reflexivity.
Qed.

(** C7. The identity of the mock signer is a function of its seed phrase
    alone: two objects constructed with the same argument, whatever calls
    were made on each and whatever transactions exist, expose the same
    public key after [connect], namely the key of the 32-byte seed built
    from the phrase; connecting again gives that key again. *)
Theorem connect_deterministic
    (arg : option JSString) (cs1 cs2 : list Call) (h1 h2 : Heap) :
  let a := perform_all (cs1 ++ [CallConnect])
             {| this := MockHSMSigner_new arg; heap := h1 |} in
  let b := perform_all (cs2 ++ [CallConnect])
             {| this := MockHSMSigner_new arg; heap := h2 |} in
  let id := Keypair_publicKey
              (Keypair_fromSeed (seed_of (default (js "test-seed") arg))) in
  publicKey a = (Normal id, a)
  /\ publicKey b = (Normal id, b)
  /\ publicKey (perform CallConnect a) = (Normal id, perform CallConnect a).
Proof.
  intros a b id. repeat split.
  - apply publicKey_when_connected. rewrite session_open_snoc. reflexivity.
  - apply publicKey_when_connected. rewrite session_open_snoc. reflexivity.
  - subst a. rewrite <- perform_all_snoc.
    apply publicKey_when_connected. rewrite session_open_snoc. reflexivity.
Qed.

(** C5 (amended). [connect] on the mock signer returns [undefined]; the
    identity is kept in the object, where the [publicKey] accessor reads
    it afterwards: the key derived from the seed phrase.  The transactions
    are untouched. *)
Theorem connect_returns_undefined (w : World MockHSMSigner) :
  let w' := snd (connect w) in
  let id := Keypair_publicKey
              (Keypair_fromSeed (seed_of (seedPhrase (this w)))) in
  fst (connect w) = Normal JSUndefined
  /\ publicKey w' = (Normal id, w')
  /\ keypair (this w')
     = Some (Keypair_fromSeed (seed_of (seedPhrase (this w))))
  /\ heap w' = heap w.
Proof. repeat split. Qed.
End SignerProperties.

Section BatchSigning.
Context `{Web3}.
Context {S : Type} {HS : HSMSigner S}.

(** The loop, started with [signed] already filled, returns [signed]
    followed by what [sign_each] collects. *)
Lemma signAllTransactions_loop_done txs :
  forall signed (w : World S) vs w',
    sign_each txs w = Some (vs, w') ->
    signAllTransactions_loop txs signed w = (Normal (signed ++ vs), w').
Proof.
  induction txs as [|tx txs IH]; intros signed w vs w' Hs; cbn in Hs.
  - injection Hs as <- <-. cbn. unfold ret. rewrite app_nil_r. reflexivity.
  - cbn [signAllTransactions_loop]. unfold bind.
    destruct (signTransaction tx w) as [[v| |e] w1]; try discriminate.
    destruct (sign_each txs w1) as [[vs1 w2]|] eqn:Hrest; try discriminate.
    injection Hs as <- <-.
    rewrite (IH _ _ _ _ Hrest), <- app_assoc. reflexivity.
Qed.

Lemma signAllTransactions_loop_fails pre :
  forall tx post signed (w w1 w2 : World S) vs e,
    sign_each pre w = Some (vs, w1) ->
    signTransaction tx w1 = (Thrown e, w2) ->
    signAllTransactions_loop (pre ++ tx :: post) signed w = (Thrown e, w2).
Proof.
  induction pre as [|p pre IH]; intros tx post signed w w1 w2 vs e Hs Hf;
    cbn in Hs.
  - injection Hs as <- <-. cbn [app signAllTransactions_loop].
    unfold bind. rewrite Hf. reflexivity.
  - cbn [app signAllTransactions_loop]. unfold bind.
    destruct (signTransaction p w) as [[v| |e'] w0]; try discriminate.
    destruct (sign_each pre w0) as [[vs1 w3]|] eqn:Hrest; try discriminate.
    injection Hs as <- <-. eapply IH; eassumption.
Qed.

(** When every call to [signTransaction] returns, [signAllTransactions]
    returns the signed values in the order of the input. *)
Lemma signAllTransactions_all_signed txs (w w' : World S) vs :
  sign_each txs w = Some (vs, w') ->
  signAllTransactions txs w = (Normal vs, w').
Proof. intros Hs. apply (signAllTransactions_loop_done txs [] w vs w' Hs). Qed.

(** C2 (amended). [signAllTransactions] signs in order and stops at the
    first call to [signTransaction] that throws: when the transactions
    before [tx] are signed one after the other and signing [tx] then
    throws [e], the batch call throws [e] and nothing else, leaving the
    world as the failing call left it; the transactions after [tx] are
    never handed to the signer and the array of results collected so far
    is not returned. *)
Theorem signAllTransactions_stops_at_first_failure
    (pre : list TxRef) (tx : TxRef) (post : list TxRef)
    (w w1 w2 : World S) (vs : list JSValue) (e : Error) :
  sign_each pre w = Some (vs, w1) ->
  signTransaction tx w1 = (Thrown e, w2) ->
  signAllTransactions (pre ++ tx :: post) w = (Thrown e, w2).
Proof.
  intros Hs Hf. unfold signAllTransactions.
  eapply signAllTransactions_loop_fails; eassumption.
Qed.
End BatchSigning.

Section TransferProperties.
Context `{Web3Signing}.

Lemma extends_ret {A} (a : A) : extends (ret a).
Proof. intros s. reflexivity. Qed.

Lemma extends_throw {A} e : extends (@throw Script A e).
Proof. intros s. reflexivity. Qed.

Lemma extends_return {A} : extends (@return_ Script A).
Proof. intros s. reflexivity. Qed.

Lemma extends_get : extends (@get Script).
Proof. intros s. reflexivity. Qed.

Lemma extends_bind {A B} (m : Eff Script A) (k : A -> Eff Script B) :
  extends m -> (forall a, extends (k a)) -> extends (bind m k).
Proof.
  intros Hm Hk s. unfold bind. specialize (Hm s).
  destruct (m s) as [[a| |e] s1]; cbn [snd] in *; try exact Hm.
  etransitivity; [exact Hm | apply Hk].
Qed.

Lemma extends_try_catch {A} (m : Eff Script A) handler :
  extends m -> (forall e, extends (handler e)) -> extends (try_catch m handler).
Proof.
  intros Hm Hh s. unfold try_catch. specialize (Hm s).
  destruct (m s) as [[a| |e] s1]; cbn [snd] in *; try exact Hm.
  etransitivity; [exact Hm | apply Hh].
Qed.

Lemma extends_invoke {A} c (m : Eff (World MockHSMSigner) A) :
  extends (invoke c m).
Proof.
  intros s. unfold invoke. destruct (m (hsmSigner s)) as [r w].
  apply prefix_app_r. reflexivity.
Qed.

Lemma extends_lift_result {A} (r : Error + A) : extends (lift_result r).
Proof. destruct r; [apply extends_throw | apply extends_ret]. Qed.

Lemma extends_lift_throws r : extends (lift_throws r).
Proof. destruct r; [apply extends_throw | apply extends_ret]. Qed.

Lemma extends_alloc t : extends (alloc t).
Proof. intros s. reflexivity. Qed.

Lemma extends_assign tx f : extends (assign tx f).
Proof. intros s. reflexivity. Qed.

Lemma extends_serialize v : extends (serialize v).
Proof.
  unfold serialize. apply extends_bind; [apply extends_get|]. intros s.
  destruct v as [|pk|tx]; try apply extends_throw.
  destruct (heap (hsmSigner s) !! tx);
    [apply extends_lift_result | apply extends_throw].
Qed.

Lemma extends_main_try environment net : extends (main_try environment net).
Proof.
  unfold main_try.
  repeat first
    [ apply extends_invoke | apply extends_lift_result
    | apply extends_lift_throws | apply extends_alloc | apply extends_assign
    | apply extends_serialize | apply extends_ret | apply extends_return
    | apply extends_try_catch; [|intros ?]
    | apply extends_bind; [|intros ?]
    | match goal with |- extends (if ?b then _ else _) => destruct b end ].
Qed.

(** A [catch] block that swallows the error leaves nothing thrown. *)
Lemma try_catch_swallow {W A} (body : Eff W A) (a : A) (w : W) e :
  fst (try_catch body (fun _ => ret a) w) <> Thrown e.
Proof.
  unfold try_catch. destruct (body w) as [[x| |e'] w1]; cbn; congruence.
Qed.

(** From the creation of the signer on: [connect] is called first, the
    [finally] block calls [disconnect] last, and nothing is thrown. *)
Lemma main_with_signer_calls environment net (s0 : Script) :
  exists between c s,
    main_with_signer environment net s0 = (c, s)
    /\ calls s = calls s0 ++ [CallConnect] ++ between ++ [CallDisconnect]
    /\ keypair (this (hsmSigner s)) = None
    /\ mock_publicKey (this (hsmSigner s)) = None
    /\ (forall e, c <> Thrown e).
Proof.
  set (s1 := {| hsmSigner := snd (connect (hsmSigner s0));
                calls := calls s0 ++ [CallConnect] |}).
  set (body := try_catch (main_try environment net) (fun _ => ret tt)).
  assert (Hpre : calls s1 `prefix_of` calls (snd (body s1))).
  { apply (extends_try_catch _ _ (extends_main_try environment net)).
    intros ?; apply extends_ret. }
  pose proof (fun e => try_catch_swallow (main_try environment net) tt s1 e)
    as Hthrown.
  fold body in Hthrown.
  destruct (body s1) as [cb s2] eqn:Hbody. cbn [fst snd] in *.
  destruct Hpre as [between Hbetween].
  exists between, cb,
    {| hsmSigner := snd (disconnect (hsmSigner s2));
       calls := calls s2 ++ [CallDisconnect] |}.
  repeat split.
  - unfold main_with_signer, bind at 1, invoke at 1.
    cbn [connect MockHSMSigner_class].
    change (Mock_connect (hsmSigner s0))
      with (Normal JSUndefined, snd (Mock_connect (hsmSigner s0))).
    cbn iota.
    change {| hsmSigner := snd (Mock_connect (hsmSigner s0));
              calls := calls s0 ++ [CallConnect] |} with s1.
    unfold try_catch_finally, try_finally. fold body. rewrite Hbody.
    reflexivity.
  - cbn [calls]. rewrite Hbetween. cbn [calls s1].
    rewrite <- !app_assoc. reflexivity.
  - exact Hthrown.
Qed.

(** C8. In every run of the transfer script that gets as far as creating
    the signer, whatever the network answers and whether or not signing,
    serialising or submitting throws: the first call on the signer is
    [connect], the last one is [disconnect], the session is closed and
    the key pair dropped when [main] finishes, and [main] itself does not
    throw. *)
Theorem main_always_disconnects
    (env : ProcessEnv) (net : Network) (c : Completion unit) (s : Script) :
  main env net = (c, Some s) ->
  head (calls s) = Some CallConnect
  /\ last (calls s) = Some CallDisconnect
  /\ session_open (calls s) = false
  /\ keypair (this (hsmSigner s)) = None
  /\ mock_publicKey (this (hsmSigner s)) = None
  /\ (forall e, c <> Thrown e).
Proof.
  unfold main. destruct (open_connection _ env net); [discriminate|].
  set (environment := or_else (SOLANA_ENV env) "localnet").
  set (s0 := {| hsmSigner := _; calls := [] |}).
  destruct (main_with_signer_calls environment net s0)
    as (between & c' & s' & Hrun & Hcalls & Hk & Hp & Hc).
  rewrite Hrun. intros Heq. injection Heq as <- <-.
  rewrite Hcalls. repeat split; try assumption.
  - cbn [calls s0 app]. rewrite app_comm_cons, last_snoc. reflexivity.
  - rewrite !app_assoc, session_open_snoc. reflexivity.
Qed.
End TransferProperties.

(* ===================================================================== *)
(** ** More on the seed of the mock backend *)
(* ===================================================================== *)

Section SeedProperties.

Lemma utf8_fit_length (s : JSString) :
  forall room, (length (utf8_fit room s) <= room)%nat.
Proof.
  induction s as [|cp s IH]; intros room; cbn [utf8_fit]; [cbn; lia|].
  destruct (Nat.leb_spec (length (utf8_encode cp)) room) as [Hfit|Hcut];
    [|cbn; lia].
  rewrite length_app. specialize (IH (room - length (utf8_encode cp))%nat). lia.
Qed.

(** [buf.write(s)] never changes the size of the buffer. *)
Lemma Buffer_write_length (buf : list Z) (s : JSString) :
  length (Buffer_write buf s) = length buf.
Proof.
  unfold Buffer_write. rewrite length_app, length_drop.
  pose proof (utf8_fit_length s (length buf)). lia.
Qed.

(** X1. The seed handed to [Keypair.fromSeed] is 32 bytes long whatever the
    seed phrase: empty, short, or longer than the buffer. *)
Theorem seed_of_length (phrase : JSString) : length (seed_of phrase) = 32%nat.
Proof. unfold seed_of. rewrite Buffer_write_length. reflexivity. Qed.

Lemma utf8_fit_ascii (s : JSString) :
  ascii_phrase s -> forall room, utf8_fit room s = take room s.
Proof.
  induction 1 as [|cp s Hcp Hs IH]; intros room; [destruct room; reflexivity|].
  cbn [utf8_fit]. unfold utf8_encode.
  destruct (Z.ltb_spec cp 128); [|lia]. cbn [length].
  destruct room as [|room]; [reflexivity|].
  cbn [Nat.leb app take]. rewrite IH. f_equal. f_equal. lia.
Qed.

(** The seed of an ASCII phrase: its first 32 characters, then zeros. *)
Lemma seed_of_ascii (s : JSString) :
  ascii_phrase s ->
  seed_of s = take 32 s ++ replicate (32 - length (take 32 s)) 0.
Proof.
  intros Hs. unfold seed_of, Buffer_write, Buffer_alloc.
  rewrite length_replicate, utf8_fit_ascii by exact Hs.
  rewrite drop_replicate. reflexivity.
Qed.

Lemma app_zeros_inj (l1 l2 : list Z) :
  forall n1 n2,
    Forall (fun cp => 0 < cp < 128) l1 -> Forall (fun cp => 0 < cp < 128) l2 ->
    l1 ++ replicate n1 0 = l2 ++ replicate n2 0 -> l1 = l2.
Proof.
  revert l2. induction l1 as [|a l1 IH]; intros [|b l2] n1 n2 H1 H2 Heq.
  - reflexivity.
  - apply Forall_cons in H2 as [Hb _]. destruct n1; cbn in Heq; [discriminate|].
    injection Heq as Hb0 _. lia.
  - apply Forall_cons in H1 as [Ha _]. destruct n2; cbn in Heq; [discriminate|].
    injection Heq as Ha0 _. lia.
  - apply Forall_cons in H1 as [_ H1]. apply Forall_cons in H2 as [_ H2].
    cbn in Heq. injection Heq as -> Heq. f_equal. eapply IH; eassumption.
Qed.
(** X2. Phrases of at most 32 printable ASCII characters are told apart: two
    of them with the same seed are the same phrase. *)
Theorem seed_of_short_phrase_injective (p q : JSString) :
  printable_phrase p -> printable_phrase q ->
  (length p <= 32)%nat -> (length q <= 32)%nat ->
  seed_of p = seed_of q -> p = q.
Proof.
  intros Hp Hq Hlp Hlq Hseed.
  assert (Ha : forall s, printable_phrase s -> ascii_phrase s).
  { intros s Hs. eapply Forall_impl; [exact Hs|]. intros cp Hcp. cbn in *. lia. }
  rewrite !seed_of_ascii in Hseed by auto.
  rewrite !take_ge in Hseed by lia.
  eapply app_zeros_inj; eassumption.
Qed.
End SeedProperties.

Section SeedIdentity.
Context `{Web3Signing}.

(** X3. Only the first 32 bytes of the seed phrase count: two ASCII phrases
    with the same first 32 characters give signers with the same key pair
    and the same public key after [connect]. *)
Theorem seed_phrase_cut_at_32_bytes (p q : JSString) (h1 h2 : Heap) :
  ascii_phrase p -> ascii_phrase q -> take 32 p = take 32 q ->
  let a := snd (connect {| this := MockHSMSigner_new (Some p); heap := h1 |}) in
  let b := snd (connect {| this := MockHSMSigner_new (Some q); heap := h2 |}) in
  seed_of p = seed_of q
  /\ keypair (this a) = keypair (this b)
  /\ fst (publicKey a) = fst (publicKey b).
Proof.
  intros Hp Hq Hcut a b.
  assert (Hseed : seed_of p = seed_of q).
  { rewrite !seed_of_ascii by assumption. rewrite Hcut. reflexivity. }
  split; [exact Hseed|].
  change (keypair (this a)) with (Some (Keypair_fromSeed (seed_of p))).
  change (keypair (this b)) with (Some (Keypair_fromSeed (seed_of q))).
  change (fst (publicKey a))
    with (@Normal PublicKey (Keypair_publicKey (Keypair_fromSeed (seed_of p)))).
  change (fst (publicKey b))
    with (@Normal PublicKey (Keypair_publicKey (Keypair_fromSeed (seed_of q)))).
  rewrite Hseed. split; reflexivity.
Qed.

End SeedIdentity.

(* ===================================================================== *)
(** ** More on the signer backends *)
(* ===================================================================== *)

Section SignerFrame.
Context `{Web3Signing}.

(** What one call to [signTransaction] on the mock signer can change and
    return. *)
Lemma Mock_signTransaction_frame (tx : TxRef) (w : World MockHSMSigner) :
  let r := signTransaction tx w in
  this (snd r) = this w
  /\ length (heap (snd r)) = length (heap w)
  /\ (forall other, other <> tx -> heap (snd r) !! other = heap w !! other)
  /\ (forall v, fst r = Normal v ->
        v = JSTransaction tx
        /\ is_Some (keypair (this w)) /\ is_Some (heap w !! tx)).
Proof.
  cbn zeta. change (signTransaction tx w) with (Mock_signTransaction tx w).
  unfold Mock_signTransaction, bind, get, modify, throw, ret, set_heap.
  destruct (keypair (this w)) as [kp|] eqn:Hk;
    [|repeat split; cbn; intros; discriminate].
  destruct (heap w !! tx) as [t|] eqn:Ht;
    [|repeat split; cbn; intros; discriminate].
  destruct (Transaction_partialSign t kp) as [[e|] t'] eqn:Hsign; cbn.
  - repeat split; try discriminate.
    + apply length_insert.
    + intros other Hne. apply list_lookup_insert_ne. congruence.
  - repeat split; try (eexists; reflexivity).
    + apply length_insert.
    + intros other Hne. apply list_lookup_insert_ne. congruence.
    + congruence.
Qed.

(** X4. [signTransaction] on the mock signer touches one transaction at most:
    the signer object is unchanged, the store keeps its size, every other
    transaction is as it was; and what it returns, when it returns, is the
    reference it was given (the same object, signed in place), which takes
    an open session and an existing transaction. *)
Theorem signTransaction_frame (tx : TxRef) (w : World MockHSMSigner) :
  let r := signTransaction tx w in
  this (snd r) = this w
  /\ length (heap (snd r)) = length (heap w)
  /\ (forall other, other <> tx -> heap (snd r) !! other = heap w !! other)
  /\ (forall v, fst r = Normal v ->
        v = JSTransaction tx
        /\ is_Some (keypair (this w)) /\ is_Some (heap w !! tx)).
Proof. exact (Mock_signTransaction_frame tx w). Qed.

Lemma signAllTransactions_loop_frame txs :
  forall signed (w : World MockHSMSigner),
    let r := signAllTransactions_loop txs signed w in
    length (heap (snd r)) = length (heap w)
    /\ (forall other, other ∉ txs -> heap (snd r) !! other = heap w !! other)
    /\ (forall vs, fst r = Normal vs -> vs = signed ++ map JSTransaction txs).
Proof.
  induction txs as [|tx txs IH]; intros signed w; cbn zeta.
  - cbn. repeat split. intros vs [= <-]. rewrite app_nil_r. reflexivity.
  - cbn [signAllTransactions_loop]. unfold bind at 1 2 3.
    destruct (Mock_signTransaction_frame tx w) as (_ & Hlen & Hother & Hret).
    destruct (signTransaction tx w) as [[v| |e] w1]; cbn [fst snd] in *.
    + destruct (IH (signed ++ [v]) w1) as (Hlen' & Hother' & Hret').
      destruct (Hret v eq_refl) as (-> & _).
      split; [congruence|]. split.
      * intros other Hin. apply not_elem_of_cons in Hin as [Hne Hin].
        rewrite (Hother' other Hin). apply Hother, Hne.
      * intros vs Hvs. rewrite (Hret' vs Hvs), <- app_assoc. reflexivity.
    + split; [exact Hlen|]. split; [|discriminate].
      intros other Hin. apply not_elem_of_cons in Hin as [Hne _].
      apply Hother, Hne.
    + split; [exact Hlen|]. split; [|discriminate].
      intros other Hin. apply not_elem_of_cons in Hin as [Hne _].
      apply Hother, Hne.
Qed.

(** X5. A batch on the mock signer, however it ends, leaves the signer object
    and the size of the store as they were and touches no transaction
    outside the batch; when it returns, it returns the references of the
    batch themselves, in the order given. *)
Theorem signAllTransactions_frame (txs : list TxRef) (w : World MockHSMSigner) :
  let r := signAllTransactions txs w in
  this (snd r) = this w
  /\ length (heap (snd r)) = length (heap w)
  /\ (forall other, other ∉ txs -> heap (snd r) !! other = heap w !! other)
  /\ (forall vs, fst r = Normal vs -> vs = map JSTransaction txs).
Proof.
  cbn zeta. split; [apply signAllTransactions_loop_this|].
  apply (signAllTransactions_loop_frame txs [] w).
Qed.

(** X6. On a mock signer whose session is not open, a batch that is not empty
    throws 'Mock HSM not connected' and changes nothing, while the empty
    batch returns the empty array: no session is needed to sign nothing. *)
Theorem signAllTransactions_when_not_connected
    (arg : option JSString) (cs : list Call) (h : Heap) (txs : list TxRef) :
  session_open cs = false ->
  let w := perform_all cs {| this := MockHSMSigner_new arg; heap := h |} in
  signAllTransactions txs w
  = (match txs with
     | [] => Normal []
     | _ :: _ => Thrown "Mock HSM not connected"
     end, w).
Proof.
  intros Hclosed w. destruct txs as [|tx txs]; [reflexivity|].
  pose proof (perform_all_lifecycle cs arg h) as Hl.
  rewrite Hclosed in Hl. fold w in Hl. destruct Hl as [Hk _].
  unfold signAllTransactions. cbn [signAllTransactions_loop].
  unfold bind at 1.
  change (signTransaction tx w) with (Mock_signTransaction tx w).
  unfold Mock_signTransaction, bind, get. rewrite Hk. reflexivity.
Qed.

(** X7. The two key fields of a mock signer always agree, and its seed phrase
    never changes: after any calls, [_publicKey] is the public key of
    [keypair] (both null, or both set) and [seedPhrase] is what the
    constructor stored. *)
Theorem mock_fields_consistent
    (arg : option JSString) (cs : list Call) (h : Heap) :
  let s := this (perform_all cs
                   {| this := MockHSMSigner_new arg; heap := h |}) in
  mock_publicKey s = Keypair_publicKey <$> keypair s
  /\ seedPhrase s = default (js "test-seed") arg
  /\ (is_Some (keypair s) <-> session_open cs = true).
Proof.
  cbn zeta.
  pose proof (perform_all_lifecycle cs arg h) as Hl.
  split; [|split; [apply perform_all_seedPhrase|]].
  - destruct (session_open cs); destruct Hl as [-> ->]; reflexivity.
  - destruct (session_open cs); destruct Hl as [-> _].
    + split; [reflexivity | eexists; reflexivity].
    + split; [intros [? [=]] | discriminate].
Qed.

(** X8. The [publicKey] accessor returns a key exactly when the session is
    open, and reading it never changes anything. *)
Theorem publicKey_iff_session_open
    (arg : option JSString) (cs : list Call) (h : Heap) :
  let w := perform_all cs {| this := MockHSMSigner_new arg; heap := h |} in
  ((exists pk, fst (publicKey w) = Normal pk) <-> session_open cs = true)
  /\ snd (publicKey w) = w.
Proof.
  cbn zeta. split; [|apply publicKey_world].
  pose proof (perform_all_lifecycle cs arg h) as Hl.
  unfold publicKey, bind, get. cbn [_publicKey MockHSMSigner_class].
  destruct (session_open cs); destruct Hl as [_ ->]; cbn.
  - split; [reflexivity | eexists; reflexivity].
  - split; [intros [? [=]] | discriminate].
Qed.

(** X9. On an open session, [connect] again changes nothing, and [disconnect]
    followed by [connect] brings back exactly the state before: the key
    pair is rebuilt from the stored phrase. *)
Theorem reconnect_restores_session
    (arg : option JSString) (cs : list Call) (h : Heap) :
  session_open cs = true ->
  let w := perform_all cs {| this := MockHSMSigner_new arg; heap := h |} in
  connect w = (Normal JSUndefined, w)
  /\ connect (snd (disconnect w)) = (Normal JSUndefined, w).
Proof.
  intros Hopen w.
  pose proof (perform_all_lifecycle cs arg h) as Hl.
  rewrite Hopen in Hl. fold w in Hl. destruct Hl as [Hk Hp].
  destruct w as [[pk phrase kp] hw]. cbn in Hk, Hp. subst pk kp.
  split; reflexivity.
Qed.

(** X10. A plain [HSMSigner] object is inert: whatever calls were made on it,
    [connect], [signTransaction] and a batch that is not empty throw the
    'must be implemented by subclass' errors, the accessor throws, and
    neither the object nor the store has changed. *)
Theorem plain_HSMSigner_is_inert
    (cs : list Call) (h : Heap) (tx : TxRef) (txs : list TxRef) :
  let w := perform_all cs {| this := HSMSigner_new; heap := h |} in
  w = {| this := HSMSigner_new; heap := h |}
  /\ connect w = (Thrown "connect() must be implemented by subclass", w)
  /\ signTransaction tx w
     = (Thrown "signTransaction() must be implemented by subclass", w)
  /\ signAllTransactions (tx :: txs) w
     = (Thrown "signTransaction() must be implemented by subclass", w)
  /\ disconnect w = (Normal JSUndefined, w).
Proof.
  cbn zeta. rewrite base_perform_all. repeat split.
Qed.
End SignerFrame.

Section BatchRefinement.
Context `{Web3}.
Context {S : Type} {HS : HSMSigner S}.

Lemma signAllTransactions_loop_returns txs :
  forall signed (w w' : World S) vs,
    signAllTransactions_loop txs signed w = (Normal vs, w') ->
    exists rest, vs = signed ++ rest /\ sign_each txs w = Some (rest, w').
Proof.
  induction txs as [|tx txs IH]; intros signed w w' vs.
  - cbn. unfold ret. intros [= <- <-]. exists []. rewrite app_nil_r.
    split; reflexivity.
  - cbn [signAllTransactions_loop sign_each]. unfold bind.
    destruct (signTransaction tx w) as [[v| |e] w1]; try discriminate.
    intros Hloop. apply IH in Hloop as (rest & -> & ->).
    exists (v :: rest). rewrite <- app_assoc. split; reflexivity.
Qed.

(** X11. For any backend, the batch returns exactly when signing the
    transactions one by one, in order, each on the state the previous one
    left, returns every time; it then gives those results in the same
    order, one per transaction, and leaves the same state. *)
Theorem signAllTransactions_is_sequential
    (txs : list TxRef) (w w' : World S) (vs : list JSValue) :
  signAllTransactions txs w = (Normal vs, w')
  <-> sign_each txs w = Some (vs, w').
Proof.
  split.
  - intros Hrun. apply signAllTransactions_loop_returns in Hrun
      as (rest & -> & Heach). exact Heach.
  - apply signAllTransactions_all_signed.
Qed.

Lemma sign_each_length txs :
  forall (w w' : World S) vs,
    sign_each txs w = Some (vs, w') -> length vs = length txs.
Proof.
  induction txs as [|tx txs IH]; intros w w' vs; cbn.
  - intros [= <- _]. reflexivity.
  - destruct (signTransaction tx w) as [[v| |e] w1]; try discriminate.
    destruct (sign_each txs w1) as [[rest w2]|] eqn:Hrest; try discriminate.
    intros [= <- _]. cbn. f_equal. eapply IH, Hrest.
Qed.
End BatchRefinement.

(* ===================================================================== *)
(** ** More on the transfer script *)
(* ===================================================================== *)

Section TransferExtras.
Context `{Web3Signing}.

(** X12. An unset or empty [SOLANA_ENV] means 'localnet'; any other name than
    'localnet', 'devnet' and 'mainnet-beta' makes [main] throw 'Unknown
    environment: <name>' before a signer exists. *)
Theorem main_environment_selection (env : ProcessEnv) (net : Network) :
  (SOLANA_ENV env = None \/ SOLANA_ENV env = Some "" ->
     main env net
     = main {| SOLANA_ENV := Some "localnet";
               RPC_ENDPOINT := RPC_ENDPOINT env |} net)
  /\ (forall name,
        SOLANA_ENV env = Some name ->
        name <> "" -> name <> "localnet" -> name <> "devnet" ->
        name <> "mainnet-beta" ->
        main env net = (Thrown ("Unknown environment: " +:+ name), None)).
Proof.
  split.
  - intros [Hnone|Hempty]; unfold main; cbn [SOLANA_ENV];
      [rewrite Hnone | rewrite Hempty]; reflexivity.
  - intros name Hname Hne Hl Hd Hm. unfold main. rewrite Hname.
    unfold or_else, open_connection.
    apply String.eqb_neq in Hne, Hl, Hd, Hm.
    rewrite Hne, Hl, Hd, Hm. reflexivity.
Qed.

Ltac run_script :=
  cbv [main_with_signer main_try try_catch_finally try_finally try_catch
       bind invoke lift_result lift_throws alloc assign serialize publicKey
       get modify ret throw return_ set_this set_heap set_keypair
       set_publicKey connect disconnect signTransaction _publicKey
       MockHSMSigner_class Mock_connect Mock_disconnect Mock_signTransaction
       MockHSMSigner_new hsmSigner calls this heap keypair mock_publicKey
       seedPhrase default from_option id fst snd app length].

(** The script once the connection is open, as a function of the
    environment name. *)
Lemma main_opened (env : ProcessEnv) (net : Network) :
  open_connection (or_else (SOLANA_ENV env) "localnet") env net = None ->
  main env net
  = let '(c, s) :=
      main_with_signer (or_else (SOLANA_ENV env) "localnet") net
        {| hsmSigner := {| this := MockHSMSigner_new (Some (js "my-secure-seed"));
                           heap := [] |};
           calls := [] |} in
    (c, Some s).
Proof. intros Hopen. unfold main. rewrite Hopen. reflexivity. Qed.

(** X13. When the airdrop fails on localnet or devnet, [main] returns without
    throwing and without building or signing anything: the signer was
    connected, asked for its public key, and disconnected. *)
Theorem main_airdrop_failure (env : ProcessEnv) (net : Network) :
  let environment := or_else (SOLANA_ENV env) "localnet" in
  open_connection environment env net = None ->
  funds_wallet environment = true ->
  airdrop_fails net ->
  exists s,
    main env net = (Returned, Some s)
    /\ calls s = [CallConnect; CallPublicKey; CallDisconnect]
    /\ heap (hsmSigner s) = []
    /\ keypair (this (hsmSigner s)) = None.
Proof.
  intros environment Hopen Hfunds Hfail.
  rewrite main_opened by exact Hopen. fold environment.
  unfold funds_wallet in Hfunds. unfold airdrop_fails, script_identity in Hfail.
  run_script. rewrite Hfunds.
  destruct Hfail as [[e He]|(sig & e & Hsig & He)].
  - rewrite He. eexists. repeat split.
  - rewrite Hsig, He. eexists. repeat split.
Qed.


(** X15. Outside localnet and devnet the script never asks for an airdrop: what
    [main] does is the same on two networks that differ only in how they
    would answer one. *)
Theorem main_no_airdrop_elsewhere (env : ProcessEnv) (net net' : Network) :
  funds_wallet (or_else (SOLANA_ENV env) "localnet") = false ->
  same_but_airdrop net net' ->
  main env net = main env net'.
Proof.
  intros Hfunds (Hurl & Hconn & Hlatest & Hsend).
  unfold main, open_connection, main_with_signer, main_try.
  unfold funds_wallet in Hfunds.
  rewrite Hfunds, Hurl, Hconn, Hlatest, Hsend. reflexivity.
Qed.


End TransferExtras.

(* ===================================================================== *)
(** ** Properties of the basic SOL transfer script *)
(* ===================================================================== *)

Module BasicsProperties.
Import Basics.
Section ScriptProperties.
Context `{Web3}.

Ltac run_basics :=
  cbv [main main_connected request try_catch bind ret throw return_].

(** Case analysis on every answer of the outside world, in the order the
    script asks. *)
Ltac answers :=
  repeat
    match goal with
    | |- context [match getVersion ?r ?l with _ => _ end] =>
        destruct (getVersion r l) eqn:?
    | |- context [match requestAirdrop ?r ?l ?a ?b with _ => _ end] =>
        destruct (requestAirdrop r l a b) eqn:?
    | |- context [match confirmTransaction ?r ?l ?a with _ => _ end] =>
        destruct (confirmTransaction r l a) eqn:?
    | |- context [match sendAndConfirmTransaction ?r ?l ?a ?b with _ => _ end] =>
        destruct (sendAndConfirmTransaction r l a b) eqn:?
    | |- context [match getBalance ?r ?l ?a with _ => _ end] =>
        destruct (getBalance r l a) eqn:?
    | |- context [if ?z =? 0 then _ else _] =>
        destruct (Z.eqb_spec z 0)
    end.

(** X18. In every run the requests are an initial part of one fixed sequence:
    version, airdrop and its confirmation (on localnet and devnet only),
    the sender's balance, one transfer of 0.5 SOL signed by the sender
    alone, then the two final balances.  So the script never transfers
    twice, never transfers before reading the balance, and asks for no
    airdrop elsewhere. *)
Theorem requests_follow_the_script
    (env : ProcessEnv) (rpc : Rpc) (sender recipient : Keypair) :
  exists airdropSignature,
    snd (main env rpc sender recipient)
    `prefix_of` full_run (or_else (SOLANA_ENV env) "localnet")
                  sender recipient airdropSignature.
Proof.
  unfold full_run. run_basics.
  destruct (open_connection _ env rpc);
    [exists ""; apply prefix_nil|].
  destruct (String.eqb _ "localnet" || String.eqb _ "devnet");
    answers; cbn [snd app];
    first [ exists ""; eexists; cbn [app]; reflexivity
          | eexists; eexists; cbn [app]; reflexivity ].
Qed.


(** X20. How [main] ends, in every run.  It finishes normally only after the
    whole sequence of requests, whether or not the transfer went through;
    it returns early, having sent nothing, only when the airdrop step threw
    or the sender's balance was zero; and it throws only what opening the
    connection, [getVersion] or [getBalance] threw, never an error of the
    airdrop or of the transfer. *)
Theorem main_outcomes
    (env : ProcessEnv) (rpc : Rpc) (sender recipient : Keypair) :
  let environment := or_else (SOLANA_ENV env) "localnet" in
  let '(c, log) := main env rpc sender recipient in
  match c with
  | Normal _ =>
      exists airdropSignature,
        log = full_run environment sender recipient airdropSignature
  | Returned =>
      existsb is_send log = false
      /\ exists before,
           (log = before ++ [GetBalance (Keypair_publicKey sender)]
            /\ getBalance rpc before (Keypair_publicKey sender) = inr 0)
           \/ (exists e,
                 log = before
                       ++ [RequestAirdrop (Keypair_publicKey sender)
                             (2 * LAMPORTS_PER_SOL)]
                 /\ requestAirdrop rpc before (Keypair_publicKey sender)
                      (2 * LAMPORTS_PER_SOL) = inl e)
           \/ (exists airdropSignature e,
                 log = before ++ [ConfirmTransaction airdropSignature]
                 /\ confirmTransaction rpc before airdropSignature = inl e)
  | Thrown e =>
      (log = [] /\ open_connection environment env rpc = Some e)
      \/ exists before,
           (log = before ++ [GetVersion] /\ getVersion rpc before = inl e)
           \/ (exists account,
                 log = before ++ [GetBalance account]
                 /\ getBalance rpc before account = inl e)
  end.
Proof.
  cbn zeta. unfold full_run. run_basics.
  destruct (open_connection _ env rpc) eqn:Hopen; [left; split; reflexivity|].
  destruct (String.eqb _ "localnet" || String.eqb _ "devnet");
    answers; cbn [app existsb is_send orb]; subst;
    first
      [ (* normal end *)
        solve [ exists ""; reflexivity | eexists; reflexivity ]
      | (* early return *)
        split; [reflexivity|];
        match goal with
        | |- exists before, (?l = _ /\ _) \/ _ => exists (removelast l)
        end;
        cbn [removelast];
        solve [ left; split; [reflexivity | assumption]
              | right; left; eexists; split; [reflexivity | eassumption]
              | right; right; eexists _, _; split; [reflexivity | eassumption] ]
      | (* thrown *)
        right;
        match goal with
        | |- exists before, (?l = _ /\ _) \/ _ => exists (removelast l)
        end;
        cbn [removelast];
        solve [ left; split; [reflexivity | assumption]
              | right; eexists; split; [reflexivity | eassumption] ] ].
Qed.
End ScriptProperties.
End BasicsProperties.

(* ===================================================================== *)
(** ** Properties of the quorum engine *)
(* ===================================================================== *)

Import Multisig.

Section EngineProperties.
Context {Identity : Type} `{Countable Identity}.
Context {Payload SignedTx Confirmation : Type}.

Abbreviation Member := (@Member Identity).
Abbreviation Engine := (@Engine Identity _ _ Payload Confirmation).
Abbreviation Proposal := (@Proposal Identity _ _ Payload Confirmation).

Lemma count_approve_empty : count_approve (∅ : gmap Identity Decision) = 0.
Proof. unfold count_approve. rewrite map_filter_empty, map_size_empty. reflexivity. Qed.

Lemma count_approve_insert_new (vs : gmap Identity Decision) who :
  vs !! who = None ->
  count_approve (<[who := VoteApprove]> vs) = count_approve vs + 1.
Proof.
  intros Hnew. unfold count_approve.
  rewrite map_filter_insert_True by reflexivity.
  rewrite map_size_insert_None; [lia|].
  rewrite map_lookup_filter_None. left. exact Hnew.
Qed.

(** A vote that is accepted moves the proposal to [Approved] exactly when
    the approvals recorded after it reach the threshold, and leaves it
    [Active] otherwise. *)
Lemma cast_vote_approved_iff (e e' : Engine) i who d :
  cast_vote e i who d = inr e' ->
  exists p p',
    proposals e !! i = Some p /\ state p = Active
    /\ proposals e' !! i = Some p'
    /\ votes p' = <[who := d]> (votes p)
    /\ (state p' = Approved <-> threshold (registry e) <= count_approve (votes p'))
    /\ (state p' = Active <-> count_approve (votes p') < threshold (registry e)).
Proof.
  unfold cast_vote. destruct (negb _); [discriminate|].
  destruct (proposals e !! i) as [p|] eqn:Hp; [|discriminate].
  case_bool_decide as Hst; [|discriminate].
  intros Heq. injection Heq as <-.
  exists p, (with_vote p (<[who:=d]> (votes p))
               (if threshold (registry e) <=? count_approve (<[who:=d]> (votes p))
                then Approved else Active)).
  repeat split; try assumption.
  - cbn. apply list_lookup_insert_eq. eapply lookup_lt_Some, Hp.
  - cbn. destruct (Z.leb_spec (threshold (registry e))
                     (count_approve (<[who:=d]> (votes p)))); [lia|discriminate].
  - cbn. intros Hle. apply Z.leb_le in Hle. rewrite Hle. reflexivity.
  - cbn. destruct (Z.leb_spec (threshold (registry e))
                     (count_approve (<[who:=d]> (votes p)))); [discriminate|lia].
  - cbn. intros Hlt. apply Z.leb_gt in Hlt. rewrite Hlt. reflexivity.
Qed.

(** C9. [create] rejects a bad configuration with a configuration error:
    a threshold below 1 or above the number of members is an
    [InvalidThreshold], two entries with the same identity are a
    [DuplicateMember]; and a registry that is constructed keeps the
    members and threshold given, with 1 <= threshold <= member count and
    pairwise distinct identities. *)
Theorem create_validates_configuration (ms : list Member) (t : Z) :
  (t < 1 \/ Z.of_nat (length ms) < t ->
     create ms t = inl InvalidThreshold)
  /\ ((exists i j mi mj, i <> j /\ ms !! i = Some mi /\ ms !! j = Some mj
                         /\ identity mi = identity mj) ->
      exists e, create ms t = inl e /\ is_ConfigurationError e = true)
  /\ (forall r, create ms t = inr r ->
        members r = ms /\ threshold r = t
        /\ 1 <= threshold r <= Z.of_nat (length (members r))
        /\ NoDup (map identity (members r))).
Proof.
  unfold create. split; [|split].
  - intros Hbad.
    destruct (Z.ltb_spec t 1), (Z.ltb_spec (Z.of_nat (length ms)) t);
      cbn; try reflexivity; lia.
  - intros (i & j & mi & mj & Hij & Hi & Hj & Hsame).
    destruct ((t <? 1) || (Z.of_nat (length ms) <? t));
      [exists InvalidThreshold; split; reflexivity|].
    case_bool_decide as Hnd; [|exists DuplicateMember; split; reflexivity].
    exfalso. apply Hij.
    rewrite NoDup_alt in Hnd. apply (Hnd i j (identity mi)).
    + rewrite list_lookup_fmap, Hi. reflexivity.
    + rewrite list_lookup_fmap, Hj, Hsame. reflexivity.
  - intros r.
    destruct (Z.ltb_spec t 1), (Z.ltb_spec (Z.of_nat (length ms)) t);
      cbn; try discriminate.
    case_bool_decide as Hnd; [|discriminate].
    intros Heq. injection Heq as <-. cbn. repeat split; (assumption || lia).
Qed.

(** A registry that is constructed holds the members and the threshold
    it was given. *)
Lemma create_keeps_configuration (ms : list Member) (t : Z) (r : Registry) :
  create ms t = inr r -> members r = ms /\ threshold r = t.
Proof.
  unfold create. destruct ((t <? 1) || (Z.of_nat (length ms) <? t));
    [discriminate|].
  case_bool_decide; [|discriminate].
  intros [= <-]. split; reflexivity.
Qed.

(** What [create_proposal] gives on a new engine: proposal 0, [Active],
    without votes, stored. *)
Lemma create_proposal_new reg who (payload : Payload) lock now
    (e0 : Engine) (p0 : Proposal) :
  create_proposal (new_engine reg) who payload lock now = inr (e0, p0) ->
  index p0 = 0%nat /\ registry e0 = reg /\ proposals e0 = [p0]
  /\ state p0 = Active /\ votes p0 = ∅ /\ action_payload p0 = payload
  /\ created_at p0 = now /\ time_lock p0 = lock.
Proof.
  unfold create_proposal. destruct (has_permission _ _ _); [|discriminate].
  intros Heq. injection Heq as <- <-. repeat split.
Qed.

(** Execution is refused, and the signer left alone, whenever the
    proposal is not [Approved]. *)
Lemma execute_requires_approved (e : Engine) i who now
    (sign : Payload -> option SignedTx)
    (submit : SignedTx -> option Confirmation) :
  state_of e i <> Some Approved ->
  execute_proposal e i who now sign submit
  = {| outcome := inl ProposalNotReady; engine_after := e;
       signer_calls := [] |}.
Proof.
  unfold state_of, execute_proposal. intros Hst.
  destruct (proposals e !! i) as [p|]; [|reflexivity].
  case_bool_decide as Hp; [|reflexivity].
  exfalso. apply Hst. cbn. rewrite Hp. reflexivity.
Qed.

(** An [Approved] proposal past its time lock is executed by a permitted
    executor when the signer and the ledger both answer. *)
Lemma execute_approved (e : Engine) i (p : Proposal) who now
    (sign : Payload -> option SignedTx)
    (submit : SignedTx -> option Confirmation) stx c :
  proposals e !! i = Some p ->
  state p = Approved ->
  created_at p + time_lock p <= now ->
  has_permission (registry e) who Execute = true ->
  sign (action_payload p) = Some stx ->
  submit stx = Some c ->
  execute_proposal e i who now sign submit
  = {| outcome := inr c; engine_after := store e i (executed p c);
       signer_calls := [action_payload p] |}.
Proof.
  intros Hp Hst Hlock Hperm Hsign Hsubmit. unfold execute_proposal.
  rewrite Hp, bool_decide_eq_true_2 by exact Hst.
  destruct (Z.ltb_spec now (created_at p + time_lock p)); [lia|].
  rewrite Hperm, Hsign, Hsubmit. reflexivity.
Qed.

(** C1. With three members and threshold 2, a new proposal is [Active];
    one approval leaves it [Active] with one [Approve] vote, and while it
    is [Active] every execution attempt fails with [ProposalNotReady]
    without calling the signer or changing the engine; the approval of a
    second member brings the count to 2 and the proposal to [Approved],
    after which an executor with the Execute permission, past the time
    lock, with a signer and ledger that answer, executes it. *)
Theorem two_of_three_quorum
    (m1 m2 m3 : Member) (reg : Registry) (who a b : Identity)
    (payload : Payload) (lock now : Z) (e0 : Engine) (p0 : Proposal) :
  create [m1; m2; m3] 2 = inr reg ->
  create_proposal (new_engine reg) who payload lock now = inr (e0, p0) ->
  has_permission reg a Approve = true ->
  has_permission reg b Approve = true ->
  a <> b ->
  exists (e1 e2 : Engine) (p1 p2 : Proposal),
    state_of e0 (index p0) = Some Active
    /\ cast_vote e0 (index p0) a VoteApprove = inr e1
    /\ proposals e1 !! index p0 = Some p1
    /\ state p1 = Active /\ count_approve (votes p1) = 1
    /\ (forall x t (sign : Payload -> option SignedTx)
               (submit : SignedTx -> option Confirmation),
          execute_proposal e1 (index p0) x t sign submit
          = {| outcome := inl ProposalNotReady; engine_after := e1;
               signer_calls := [] |})
    /\ cast_vote e1 (index p0) b VoteApprove = inr e2
    /\ proposals e2 !! index p0 = Some p2
    /\ state p2 = Approved /\ count_approve (votes p2) = 2
    /\ (forall x t (sign : Payload -> option SignedTx)
               (submit : SignedTx -> option Confirmation) stx c,
          has_permission reg x Execute = true ->
          now + lock <= t ->
          sign payload = Some stx -> submit stx = Some c ->
          let r := execute_proposal e2 (index p0) x t sign submit in
          outcome r = inr c
          /\ state_of (engine_after r) (index p0) = Some Executed
          /\ signer_calls r = [payload]).
Proof.
  intros Hreg Hnew Ha Hb Hab.
  apply create_keeps_configuration in Hreg as (Hms & Ht).
  apply create_proposal_new in Hnew
    as (Hi & Hr & Hps & Hst & Hvs & Hpay & Hat & Hlock).
  rewrite Hi.
  set (p1 := with_vote p0 (<[a := VoteApprove]> (votes p0)) Active).
  set (p2 := with_vote p1 (<[b := VoteApprove]> (votes p1)) Approved).
  set (e1 := store e0 0 p1). set (e2 := store e1 0 p2).
  assert (Hc1 : count_approve (votes p1) = 1).
  { cbn. rewrite Hvs, count_approve_insert_new, count_approve_empty;
      [reflexivity | apply lookup_empty]. }
  assert (Hc2 : count_approve (votes p2) = 2).
  { cbn [p2 votes with_vote]. rewrite count_approve_insert_new.
    - fold (votes p1). rewrite Hc1. reflexivity.
    - cbn. rewrite Hvs, lookup_insert_ne by exact Hab. apply lookup_empty. }
  assert (Hv1 : cast_vote e0 0 a VoteApprove = inr e1).
  { unfold cast_vote. rewrite Hr, Ha, Hps. cbn [negb lookup list_lookup].
    rewrite bool_decide_eq_true_2 by exact Hst.
    fold (votes p1) in Hc1. cbn [p1 votes with_vote] in Hc1.
    rewrite Hc1, Ht. reflexivity. }
  assert (He1 : proposals e1 = [p1]).
  { cbn. rewrite Hps. reflexivity. }
  assert (Hv2 : cast_vote e1 0 b VoteApprove = inr e2).
  { unfold cast_vote. cbn [registry e1 store]. rewrite Hr, Hb.
    change (proposals (store e0 0 p1)) with (proposals e1). rewrite He1.
    cbn [negb lookup list_lookup].
    rewrite bool_decide_eq_true_2 by reflexivity.
    cbn [p2 votes with_vote] in Hc2. rewrite Hc2, Ht. reflexivity. }
  assert (He2 : proposals e2 = [p2]).
  { cbn [e2 store proposals]. change (proposals (store e0 0 p1)) with (proposals e1).
    rewrite He1. reflexivity. }
  exists e1, e2, p1, p2.
  split; [unfold state_of; rewrite Hps; cbn; rewrite Hst; reflexivity|].
  split; [exact Hv1|]. split; [rewrite He1; reflexivity|].
  split; [reflexivity|]. split; [exact Hc1|].
  split.
  { intros x t sign submit. apply execute_requires_approved.
    unfold state_of. rewrite He1. cbn. discriminate. }
  split; [exact Hv2|]. split; [rewrite He2; reflexivity|].
  split; [reflexivity|]. split; [exact Hc2|].
  intros x t sign submit stx c Hx Hlate Hsign Hsubmit r. subst r.
  rewrite (execute_approved e2 0 p2 x t sign submit stx c).
  - cbn [outcome engine_after signer_calls]. repeat split.
    + unfold state_of. cbn [store proposals]. rewrite He2. reflexivity.
    + cbn. rewrite Hpay. reflexivity.
  - rewrite He2. reflexivity.
  - reflexivity.
  - cbn. lia.
  - cbn [e2 e1 store registry]. rewrite Hr. exact Hx.
  - cbn. rewrite Hpay. exact Hsign.
  - exact Hsubmit.
Qed.

Lemma create_accepts (ms : list Member) (t : Z) :
  1 <= t <= Z.of_nat (length ms) -> NoDup (map identity ms) ->
  create ms t = inr {| members := ms; threshold := t |}.
Proof.
  intros Ht Hnd. unfold create.
  destruct (Z.ltb_spec t 1), (Z.ltb_spec (Z.of_nat (length ms)) t); try lia.
  cbn. rewrite bool_decide_eq_true_2 by exact Hnd. reflexivity.
Qed.

(** The script casts a single approval before it executes: run against
    this engine with three distinct keys, its execution step is refused
    with [ProposalNotReady] and the signer is not called. *)
Lemma script_executes_below_quorum (creator member1 member2 : Identity)
    (message : Payload) now (sign : Payload -> option SignedTx)
    (submit : SignedTx -> option Confirmation) :
  NoDup [creator; member1; member2] ->
  exists e1,
    script_run creator member1 member2 message now sign submit
    = Some {| outcome := inl ProposalNotReady; engine_after := e1;
              signer_calls := [] |}.
Proof.
  intros Hnd. unfold script_run.
  rewrite create_accepts by (cbn; unfold script_threshold; (lia || exact Hnd)).
  assert (Hne : creator <> member1).
  { apply NoDup_cons in Hnd as [Hc _]. set_solver. }
  assert (Hp : has_permission
                 {| members := script_members creator member1 member2;
                    threshold := script_threshold |} creator Propose = true).
  { unfold has_permission. cbn. rewrite decide_True by reflexivity.
    reflexivity. }
  assert (Ha : has_permission
                 {| members := script_members creator member1 member2;
                    threshold := script_threshold |} member1 Approve = true).
  { unfold has_permission. cbn. rewrite decide_False by exact Hne.
    cbn. rewrite decide_True by reflexivity. reflexivity. }
  unfold create_proposal. cbn [new_engine registry proposals]. rewrite Hp.
  unfold cast_vote. cbn [registry proposals index length app]. rewrite Ha.
  cbn [negb lookup list_lookup state votes].
  rewrite bool_decide_eq_true_2 by reflexivity.
  rewrite count_approve_insert_new, count_approve_empty by apply lookup_empty.
  cbn [threshold script_threshold Z.add Z.leb Z.compare Pos.compare
       Pos.compare_cont].
  eexists. rewrite execute_requires_approved; [reflexivity|].
  unfold state_of. cbn. discriminate.
Qed.
End EngineProperties.

(* ===================================================================== *)
(** ** The code on concrete inputs *)
(* ===================================================================== *)

Import Sym.

Example seed_of_my_secure_seed :
  seed_of (js "my-secure-seed")
  = [109; 121; 45; 115; 101; 99; 117; 114; 101; 45; 115; 101; 101; 100;
     0; 0; 0; 0; 0; 0; 0; 0; 0; 0; 0; 0; 0; 0; 0; 0; 0; 0].
Proof. reflexivity. Qed.

(** Seed phrases are cut at 32 bytes, and a character that does not fit
    whole is left out. *)
Example seed_of_long_phrase :
  seed_of (js "0123456789012345678901234567890" ++ [233; 65])
  = seed_of (js "0123456789012345678901234567890").
Proof. reflexivity. Qed.

Lemma sign_refused_when_not_connected_witness :
  session_open [CallConnect; CallSignTransaction 0%nat; CallDisconnect] = false
  /\ let w := perform_all [CallConnect; CallSignTransaction 0%nat; CallDisconnect]
                {| this := MockHSMSigner_new None;
                   heap := [ready_transfer (seed_of (js "test-seed"))] |} in
     signTransaction 0%nat w = (Thrown "Mock HSM not connected", w).
Proof.
  split; [reflexivity|].
  apply (sign_refused_when_not_connected None
           [CallConnect; CallSignTransaction 0%nat; CallDisconnect]).
  reflexivity.
Defined.

Lemma publicKey_throws_when_not_connected_witness :
  session_open [CallConnect; CallDisconnect; CallPublicKey] = false
  /\ let w := perform_all [CallConnect; CallDisconnect; CallPublicKey]
                {| this := MockHSMSigner_new (Some (js "my-secure-seed"));
                   heap := [] |} in
     publicKey w = (Thrown "HSM not initialized. Call connect() first.", w).
Proof.
  split; [reflexivity|].
  apply (publicKey_throws_when_not_connected (Some (js "my-secure-seed"))
           [CallConnect; CallDisconnect; CallPublicKey] []).
  reflexivity.
Defined.

(** C5, as stated, fails: on a new signer for 'my-secure-seed', [connect]
    returns [undefined], not the public key that the accessor gives
    afterwards. *)
Lemma connect_does_not_return_identity :
  let w := {| this := MockHSMSigner_new (Some (js "my-secure-seed"));
              heap := [] |} in
  let id := KeyOfSeed (seed_of (js "my-secure-seed")) in
  fst (publicKey (snd (connect w))) = Normal id
  /\ fst (connect w) <> Normal (JSPublicKey id)
  /\ ~ (exists pk, fst (connect w) = Normal (JSPublicKey pk)).
Proof.
  split; [reflexivity|]. split; [discriminate|].
  intros [pk Hpk]. discriminate Hpk.
Qed.

(** C2, as stated, fails: signing [0; 1; 2] in [batch_world] throws at the
    second transaction; the caller gets the error and no array, although
    the first transaction has been signed; the third is never signed. *)
Lemma signAllTransactions_drops_signed_prefix :
  let r := signAllTransactions [0; 1; 2]%nat batch_world in
  fst r = Thrown "Transaction recentBlockhash required"
  /\ ~ (exists signed, fst r = Normal signed)
  /\ is_signed (snd r) 0%nat = true
  /\ is_signed (snd r) 2%nat = false.
Proof.
  split; [reflexivity|]. split; [|split; reflexivity].
  intros [signed Hs]. discriminate Hs.
Qed.

Lemma signAllTransactions_stops_at_first_failure_witness :
  exists w1 w2,
    sign_each [0%nat] batch_world = Some ([JSTransaction 0%nat], w1)
    /\ signTransaction 1%nat w1
       = (Thrown "Transaction recentBlockhash required", w2)
    /\ signAllTransactions [0; 1; 2]%nat batch_world
       = (Thrown "Transaction recentBlockhash required", w2).
Proof.
  eexists _, _. split; [reflexivity|]. split; [reflexivity|].
  eapply (signAllTransactions_stops_at_first_failure
            [0%nat] 1%nat [2%nat] batch_world);
    reflexivity.
Defined.

Lemma main_always_disconnects_witness :
  exists c s,
    main {| SOLANA_ENV := Some "devnet"; RPC_ENDPOINT := None |}
      rejecting_network = (c, Some s)
    /\ calls s = [CallConnect; CallPublicKey; CallPublicKey; CallPublicKey;
                  CallSignTransaction 0%nat; CallDisconnect]
    /\ last (calls s) = Some CallDisconnect.
Proof.
  eexists _, _. split; [reflexivity|]. split; [reflexivity|].
  eapply (main_always_disconnects
            {| SOLANA_ENV := Some "devnet"; RPC_ENDPOINT := None |}
            rejecting_network).
  reflexivity.
Defined.

Lemma two_of_three_quorum_witness :
  exists reg (e0 : @Engine string _ _ string unit) p0 e1 e2,
    create abc 2 = inr reg
    /\ create_proposal (new_engine reg) "A" "transfer" 0 0 = inr (e0, p0)
    /\ has_permission reg "A" Approve = true
    /\ has_permission reg "B" Approve = true
    /\ "A" <> "B"
    /\ cast_vote e0 (index p0) "A" VoteApprove = inr e1
    /\ state_of e1 (index p0) = Some Active
    /\ cast_vote e1 (index p0) "B" VoteApprove = inr e2
    /\ state_of e2 (index p0) = Some Approved.
Proof.
  set (reg := {| members := abc; threshold := 2 |}).
  set (p0 := {| index := 0; action_payload := "transfer"; creator := "A";
                state := Active; votes := ∅; created_at := 0;
                time_lock := 0; receipt := @None unit |}).
  set (e0 := {| registry := reg; proposals := [p0] |}).
  assert (Hreg : create abc 2 = inr reg) by (vm_compute; reflexivity).
  assert (Hnew : create_proposal (new_engine reg) "A" "transfer" 0 0
                 = inr (e0, p0)) by (vm_compute; reflexivity).
  assert (Ha : has_permission reg "A" Approve = true)
    by (vm_compute; reflexivity).
  assert (Hb : has_permission reg "B" Approve = true)
    by (vm_compute; reflexivity).
  assert (Hab : "A" <> "B") by discriminate.
  destruct (two_of_three_quorum (SignedTx := unit) _ _ _ reg "A" "A" "B"
              "transfer" 0 0 e0 p0 Hreg Hnew Ha Hb Hab)
    as (e1 & e2 & p1 & p2 & _ & Hv1 & Hp1 & Hs1 & _ & _ & Hv2 & Hp2 & Hs2 & _).
  exists reg, e0, p0, e1, e2. repeat (split; [assumption|]).
  split; [unfold state_of; rewrite Hp1, <- Hs1; reflexivity|].
  split; [exact Hv2|]. unfold state_of. rewrite Hp2, <- Hs2. reflexivity.
Defined.

(* ===================================================================== *)
(** ** More of the code on concrete inputs *)
(* ===================================================================== *)

Lemma ascii_js (s : string) :
  forallb (fun cp => (0 <=? cp) && (cp <? 128)) (js s) = true ->
  ascii_phrase (js s).
Proof.
  intros Hall. apply Forall_forall. intros cp Hin.
  rewrite forallb_forall in Hall. apply list_elem_of_In in Hin.
  specialize (Hall cp Hin). lia.
Qed.

Lemma printable_js (s : string) :
  forallb (fun cp => (0 <? cp) && (cp <? 128)) (js s) = true ->
  printable_phrase (js s).
Proof.
  intros Hall. apply Forall_forall. intros cp Hin.
  rewrite forallb_forall in Hall. apply list_elem_of_In in Hin.
  specialize (Hall cp Hin). lia.
Qed.

Lemma seed_phrase_cut_at_32_bytes_witness :
  ascii_phrase Scenarios.long_phrase
  /\ ascii_phrase Scenarios.other_long_phrase
  /\ take 32 Scenarios.long_phrase = take 32 Scenarios.other_long_phrase
  /\ Scenarios.long_phrase <> Scenarios.other_long_phrase
  /\ seed_of Scenarios.long_phrase = seed_of Scenarios.other_long_phrase.
Proof.
  assert (Hp : ascii_phrase Scenarios.long_phrase)
    by (apply ascii_js; reflexivity).
  assert (Hq : ascii_phrase Scenarios.other_long_phrase)
    by (apply ascii_js; reflexivity).
  assert (Hcut : take 32 Scenarios.long_phrase
                 = take 32 Scenarios.other_long_phrase) by reflexivity.
  split; [exact Hp|]. split; [exact Hq|]. split; [exact Hcut|].
  split; [discriminate|].
  exact (proj1 (seed_phrase_cut_at_32_bytes
                  Scenarios.long_phrase Scenarios.other_long_phrase [] []
                  Hp Hq Hcut)).
Defined.

Lemma seed_of_short_phrase_injective_witness :
  printable_phrase (js "test-seed")
  /\ (length (js "test-seed") <= 32)%nat
  /\ seed_of (js "test-seed") = seed_of (js "test-seed")
  /\ js "test-seed" = js "test-seed".
Proof.
  assert (Hp : printable_phrase (js "test-seed"))
    by (apply printable_js; reflexivity).
  assert (Hl : (length (js "test-seed") <= 32)%nat) by (cbn; lia).
  split; [exact Hp|]. split; [exact Hl|]. split; [reflexivity|].
  exact (seed_of_short_phrase_injective (js "test-seed") (js "test-seed")
           Hp Hp Hl Hl eq_refl).
Defined.

Lemma signAllTransactions_when_not_connected_witness :
  session_open [CallConnect; CallDisconnect] = false
  /\ let w := perform_all [CallConnect; CallDisconnect]
                {| this := MockHSMSigner_new None;
                   heap := [ready_transfer (seed_of (js "test-seed"))] |} in
     signAllTransactions [0%nat] w = (Thrown "Mock HSM not connected", w).
Proof.
  split; [reflexivity|].
  apply (signAllTransactions_when_not_connected None
           [CallConnect; CallDisconnect] _ [0%nat]).
  reflexivity.
Defined.

Lemma reconnect_restores_session_witness :
  session_open [CallConnect; CallSignTransaction 0%nat] = true
  /\ let w := perform_all [CallConnect; CallSignTransaction 0%nat]
                {| this := MockHSMSigner_new None;
                   heap := [ready_transfer (seed_of (js "test-seed"))] |} in
     connect (snd (disconnect w)) = (Normal JSUndefined, w).
Proof.
  split; [reflexivity|].
  exact (proj2 (reconnect_restores_session None
                  [CallConnect; CallSignTransaction 0%nat]
                  [ready_transfer (seed_of (js "test-seed"))] eq_refl)).
Defined.

Lemma main_airdrop_failure_witness :
  exists s,
    main {| SOLANA_ENV := None; RPC_ENDPOINT := None |} Scenarios.dry_network
    = (Returned, Some s)
    /\ calls s = [CallConnect; CallPublicKey; CallDisconnect]
    /\ heap (hsmSigner s) = []
    /\ keypair (this (hsmSigner s)) = None.
Proof.
  apply (main_airdrop_failure
           {| SOLANA_ENV := None; RPC_ENDPOINT := None |}
           Scenarios.dry_network);
    [reflexivity | reflexivity | left; eexists; reflexivity].
Defined.


Lemma main_no_airdrop_elsewhere_witness :
  main {| SOLANA_ENV := Some "mainnet-beta"; RPC_ENDPOINT := None |}
    good_network
  = main {| SOLANA_ENV := Some "mainnet-beta"; RPC_ENDPOINT := None |}
      Scenarios.dry_network.
Proof.
  apply main_no_airdrop_elsewhere; [reflexivity | repeat split].
Defined.



